(** * The data packet model of ndn-cpp ([ndn-cpp/data.hpp])

    A shallow embedding of the classes [Signature], [MetaInfo] and [Data],
    of the byte buffers they hold and of the wire-format strategy they
    delegate to, followed by the properties of the packet model. *)

From Stdlib Require Import ZArith NArith Lia String.
From Stdlib Require Import Floats.SpecFloat.
From Stdlib Require Import Strings.Byte.
From stdpp Require Import base option list.

Local Open Scope Z_scope.

(** ** Scalars *)

(** [unsigned char]. *)
Definition byte := Byte.byte.

(** The contents of a [std::vector<unsigned char>]. *)
Definition bytes := list byte.

(** [double]: an IEEE 754 binary64 value.  The model only stores and
    returns doubles, it never computes with them. *)
Definition double := spec_float.

(** The double [-1.0], the "none" value of [timestampMilliseconds_]. *)
Definition double_none : double := S754_finite true 4503599627370496 (-52).

(** [int]; the model only stores and returns it. *)
Definition int := Z.

(** [unsigned int] and the conversion of a [size_t] to it. *)
Definition unsigned_int := N.

Definition to_unsigned_int (n : N) : unsigned_int := (n mod 2 ^ 32)%N.

(** Modelled from the spec: [ndn_ContentType] (declared in [c/data.h], which
    is not among the sources): "enumerated content type; defaults to a
    generic data type".  The field comment of [type_] allows values outside
    the enumerators ("-1 for none"). *)
Inductive ndn_ContentType : Type :=
  | ndn_ContentType_DATA
  | ndn_ContentType_other (code : Z).

(** ** Memory: byte vectors on the heap *)

Module Memory.

(** The identity of a heap-allocated byte vector or buffer. *)
Definition addr := nat.

(** A heap: the buffer stored at every address handed out so far, [None]
    once the buffer has been deallocated. *)
Definition Heap := list (option bytes).

(** A raw [const unsigned char *]: null, or a position in a buffer. *)
Inductive pointer : Type :=
  | null
  | at_ (a : addr) (offset : nat).

(** The bytes of the live buffer at [a]. *)
Definition load (h : Heap) (a : addr) : option bytes := h !! a ≫= id.

(** The owner of the buffer at [a] overwrites it with [v]. *)
Definition store (a : addr) (v : bytes) (h : Heap) : Heap := <[a := Some v]> h.

(** The owner of the buffer at [a] deallocates it. *)
Definition free (a : addr) (h : Heap) : Heap := <[a := None]> h.

(** Heap computations: [None] is undefined behaviour (a read outside a
    live buffer). *)
Definition M (A : Type) : Type := Heap → option (A * Heap).

#[global] Instance M_ret : MRet M := λ A x h, Some (x, h).

#[global] Instance M_bind : MBind M := λ A B k m h,
  match m h with
  | Some (x, h') => k x h'
  | None => None
  end.

(** [new std::vector<unsigned char>(v)]: the next address, never used
    before, now holds [v]. *)
Definition alloc (v : bytes) : M addr := λ h, Some (length h, h ++ [Some v]).

(** Read a whole vector through a reference to it. *)
Definition read_vector (a : addr) : M bytes :=
  λ h, match load h a with
       | Some v => Some (v, h)
       | None => None
       end.

(** Read the [len] bytes at [p .. p + len). *)
Definition read_range (p : pointer) (len : unsigned_int) : M bytes :=
  λ h, match p with
       | null => if decide (len = 0%N) then Some ([], h) else None
       | at_ a offset =>
           match load h a with
           | Some v =>
               if decide (offset + N.to_nat len ≤ length v)%nat
               then Some (take (N.to_nat len) (drop offset v), h)
               else None
           | None => None
           end
       end.

(** The heaps that later code can reach from [h'] without touching the
    buffers allocated after [h]: every buffer that already existed in [h]
    may have been overwritten or deallocated, and new buffers may have
    been allocated. *)
Definition keeps_new (h h' h'' : Heap) : Prop :=
  ∀ a : addr, (length h ≤ a < length h')%nat → h'' !! a = h' !! a.

End Memory.

(** ** The C structs of the bridge

    [c/data.h] and the headers it includes are not among the sources.  The
    spec describes the structs as the "flat, pre-allocated representation
    used purely as a cheap interchange format": every byte value is a
    pointer and a length, the name is an array of components with its
    count, scalars are stored as they are. *)

(** Modelled from the spec: [struct ndn_NameComponent], a pointer to the
    bytes of a component and their number. *)
Record ndn_NameComponent : Type := {
  ndn_value : Memory.pointer;
  ndn_valueLength : unsigned_int
}.

(** Modelled from the spec: [struct ndn_Name], the array of components of
    a name; the list stands for the array and its count. *)
Record ndn_Name : Type := {
  ndn_components : list ndn_NameComponent
}.

(** Modelled from the spec: [struct ndn_PublisherPublicKeyDigest], the
    bytes that identify the signer. *)
Record ndn_PublisherPublicKeyDigest : Type := {
  ndn_publisherPublicKeyDigest : Memory.pointer;
  ndn_publisherPublicKeyDigestLength : unsigned_int
}.

(** Modelled from the spec: [struct ndn_KeyLocator], the bytes that lead
    to the verification key or certificate. *)
Record ndn_KeyLocator : Type := {
  ndn_keyData : Memory.pointer;
  ndn_keyDataLength : unsigned_int
}.

(** Modelled from the spec: [struct ndn_Signature], named in
    [Signature::get] and [Signature::set]; one entry per field of
    [Signature]. *)
Record ndn_Signature : Type := {
  ndn_digestAlgorithm : Memory.pointer;
  ndn_digestAlgorithmLength : unsigned_int;
  ndn_witness : Memory.pointer;
  ndn_witnessLength : unsigned_int;
  ndn_signatureBits : Memory.pointer;
  ndn_signatureBitsLength : unsigned_int;
  ndn_signerDigest : ndn_PublisherPublicKeyDigest;
  ndn_keyLocator : ndn_KeyLocator
}.

(** Modelled from the spec: [struct ndn_MetaInfo], named in
    [MetaInfo::get] and [MetaInfo::set]; one entry per field of
    [MetaInfo]. *)
Record ndn_MetaInfo : Type := {
  ndn_timestampMilliseconds : double;
  ndn_type : ndn_ContentType;
  ndn_freshnessSeconds : int;
  ndn_finalBlockID : ndn_NameComponent
}.

(** Modelled from the spec: [struct ndn_Data], named in [Data::get] and
    [Data::set]; one entry per field of [Data]. *)
Record ndn_Data : Type := {
  ndn_signature : ndn_Signature;
  ndn_name : ndn_Name;
  ndn_metaInfo : ndn_MetaInfo;
  ndn_content : Memory.pointer;
  ndn_contentLength : unsigned_int
}.

(** ** Blob *)

Module Blob.

(** Modelled from the spec: [Blob] (declared through [common.hpp], which is
    not among the sources): "owns (or shares ownership of) zero or more
    bytes; absent is distinct from present and empty; immutable once
    constructed; copies are reference-shared, not duplicated".  A Blob is a
    shared pointer to a byte vector that nobody writes to any more, or null.

    [R] is what stands for the pointee.  With [R = Memory.addr] a Blob is
    the address of its vector on the heap, which is what sharing and copying
    are about.  With [R = bytes] a Blob is identified with the contents of
    its vector, which is all that is left of an immutable buffer once
    ownership is not in question. *)
Definition t (R : Type) : Type := option R.

(** Modelled from the spec: [Blob()], the null pointer, an absent value. *)
Definition null {R} : t R := None.

(** Modelled from the spec: [reset()], which a Blob has from the shared
    pointer it is; the Blob is null afterwards. *)
Definition reset {R} (this : t R) : t R := None.

(** Modelled from the spec: the conversion
    [Blob(const ptr_lib::shared_ptr<std::vector<unsigned char> > &)], which
    "takes another reference and does not copy the bytes" (the comment of
    [Data::setContent]); a null pointer stays null. *)
Definition of_shared_ptr (value : option Memory.addr) : t Memory.addr := value.

(** Modelled from the spec: the conversion
    [Blob(const std::vector<unsigned char> &)], a new vector holding "a
    copy of the data in the vector" (the comment of [Data::setContent]). *)
Definition of_vector (value : Memory.addr) : Memory.M (t Memory.addr) :=
  v ← Memory.read_vector value; a ← Memory.alloc v; mret (Some a).

(** Modelled from the spec: [Blob(const unsigned char *, unsigned int)], "a
    raw pointer+length pair that is copied immediately": a new vector
    holding a copy of the bytes at [value .. value + valueLength). *)
Definition of_pointer (value : Memory.pointer) (valueLength : unsigned_int)
  : Memory.M (t Memory.addr) :=
  v ← Memory.read_range value valueLength; a ← Memory.alloc v; mret (Some a).

(** The bytes a Blob gives access to in heap [h]; none for a null Blob. *)
Definition contents (h : Memory.Heap) (b : t Memory.addr) : option bytes :=
  a ← b; Memory.load h a.

(** The heap addresses a Blob refers to. *)
Definition addrs (b : t Memory.addr) : list Memory.addr := option_list b.

(** The bytes at [value .. value + valueLength) as a present Blob value. *)
Definition read (h : Memory.Heap) (value : Memory.pointer)
    (valueLength : unsigned_int) : option (t bytes) :=
  '(v, _) ← Memory.read_range value valueLength h; Some (Some v).

(** Modelled from the spec: [buf()] of a Blob identified with its
    contents, the bytes it holds; none for an absent Blob. *)
Definition buf (b : t bytes) : bytes := default [] b.

(** Modelled from the spec: [size()], the number of bytes; 0 for an absent
    Blob. *)
Definition size (b : t bytes) : unsigned_int := N.of_nat (length (buf b)).

(** Two Blobs hold the same bytes. *)
Definition same (b1 b2 : t bytes) : Prop := buf b1 = buf b2.

End Blob.

(** ** Name components, names, identity references

    [name.hpp], [publisher-public-key-digest.hpp] and [key.hpp] are not
    among the sources. *)

Module Component.

(** Modelled from the spec: [Name::Component], an "opaque binary" value;
    "size-zero means not set". *)
Record t (R : Type) : Type := mk { value_ : Blob.t R }.
Arguments mk {R}.
Arguments value_ {R}.

(** Modelled from the spec: [Name::Component()], the "empty component". *)
Definition ctor {R} : t R := mk Blob.null.

(** Modelled from the spec:
    [Name::Component(const std::vector<unsigned char> &)], an "owned-copy
    byte source". *)
Definition of_vector (value : Memory.addr) : Memory.M (t Memory.addr) :=
  b ← Blob.of_vector value; mret (mk b).

(** Modelled from the spec:
    [Name::Component(const unsigned char *, unsigned int)], "a raw
    pointer+length pair that is copied immediately". *)
Definition of_pointer (value : Memory.pointer) (valueLen : unsigned_int)
  : Memory.M (t Memory.addr) :=
  b ← Blob.of_pointer value valueLen; mret (mk b).

(** Modelled from the spec: setting a component from its struct "copies
    values out of the external representation into owned storage". *)
Definition set (componentStruct : ndn_NameComponent) : Memory.M (t Memory.addr) :=
  of_pointer (ndn_value componentStruct) (ndn_valueLength componentStruct).

(** The field values of a component in heap [h]. *)
Definition view (h : Memory.Heap) (this : t Memory.addr) : t bytes :=
  mk (Blob.contents h (value_ this)).

(** The heap addresses a component refers to. *)
Definition addrs (this : t Memory.addr) : list Memory.addr :=
  Blob.addrs (value_ this).

(** The field values a component struct stands for in heap [h]. *)
Definition read (h : Memory.Heap) (componentStruct : ndn_NameComponent)
  : option (t bytes) :=
  b ← Blob.read h (ndn_value componentStruct) (ndn_valueLength componentStruct);
  Some (mk b).

(** The number of bytes of a component, 0 for an absent value. *)
Definition size (this : t bytes) : unsigned_int := Blob.size (value_ this).

End Component.

Module Name.

(** Modelled from the spec: [Name], an "ordered sequence of opaque binary
    components". *)
Definition t (R : Type) : Type := list (Component.t R).

(** Modelled from the spec: [Name()], the name without components. *)
Definition ctor {R} : t R := [].

(** Modelled from the spec: the loop of [Name::set], which appends a copy
    of every component of the struct, in order. *)
Fixpoint set_components (components : list ndn_NameComponent)
  : Memory.M (t Memory.addr) :=
  match components with
  | [] => mret []
  | c :: rest =>
      c' ← Component.set c; rest' ← set_components rest; mret (c' :: rest')
  end.

(** Modelled from the spec: [Name::set(const struct ndn_Name &)], which
    clears the name and then copies the components of the struct. *)
Definition set (nameStruct : ndn_Name) (this : t Memory.addr)
  : Memory.M (t Memory.addr) :=
  set_components (ndn_components nameStruct).

(** The field values of a name in heap [h]. *)
Definition view (h : Memory.Heap) (this : t Memory.addr) : t bytes :=
  Component.view h <$> this.

(** The heap addresses a name refers to. *)
Definition addrs (this : t Memory.addr) : list Memory.addr :=
  this ≫= Component.addrs.

(** The field values a name struct stands for in heap [h]. *)
Definition read (h : Memory.Heap) (nameStruct : ndn_Name) : option (t bytes) :=
  mapM (Component.read h) (ndn_components nameStruct).

End Name.

Module PublisherPublicKeyDigest.

(** Modelled from the spec: [PublisherPublicKeyDigest], the "identity of
    the signer (may be empty before assignment)". *)
Record t (R : Type) : Type := mk { publisherPublicKeyDigest_ : Blob.t R }.
Arguments mk {R}.
Arguments publisherPublicKeyDigest_ {R}.

(** Modelled from the spec: [PublisherPublicKeyDigest()], the empty
    identity. *)
Definition ctor {R} : t R := mk Blob.null.

(** Modelled from the spec: [PublisherPublicKeyDigest::clear()], which
    [Signature::clear] calls: "clearing resets every field to its absent
    state". *)
Definition clear {R} (this : t R) : t R :=
  mk (Blob.reset (publisherPublicKeyDigest_ this)).

(** Modelled from the spec: [PublisherPublicKeyDigest::set], which copies
    the digest out of its struct. *)
Definition set (digestStruct : ndn_PublisherPublicKeyDigest)
    (this : t Memory.addr) : Memory.M (t Memory.addr) :=
  b ← Blob.of_pointer (ndn_publisherPublicKeyDigest digestStruct)
                      (ndn_publisherPublicKeyDigestLength digestStruct);
  mret (mk b).

(** The field values of a publisher digest in heap [h]. *)
Definition view (h : Memory.Heap) (this : t Memory.addr) : t bytes :=
  mk (Blob.contents h (publisherPublicKeyDigest_ this)).

(** The heap addresses a publisher digest refers to. *)
Definition addrs (this : t Memory.addr) : list Memory.addr :=
  Blob.addrs (publisherPublicKeyDigest_ this).

(** The field values a publisher digest struct stands for in heap [h]. *)
Definition read (h : Memory.Heap) (digestStruct : ndn_PublisherPublicKeyDigest)
  : option (t bytes) :=
  b ← Blob.read h (ndn_publisherPublicKeyDigest digestStruct)
                  (ndn_publisherPublicKeyDigestLength digestStruct);
  Some (mk b).

End PublisherPublicKeyDigest.

Module KeyLocator.

(** Modelled from the spec: [KeyLocator], the "pointer to the verification
    key/certificate (may be empty)". *)
Record t (R : Type) : Type := mk { keyData_ : Blob.t R }.
Arguments mk {R}.
Arguments keyData_ {R}.

(** Modelled from the spec: [KeyLocator()], the empty locator. *)
Definition ctor {R} : t R := mk Blob.null.

(** Modelled from the spec: [KeyLocator::clear()], which [Signature::clear]
    calls: "clearing resets every field to its absent state". *)
Definition clear {R} (this : t R) : t R := mk (Blob.reset (keyData_ this)).

(** Modelled from the spec: [KeyLocator::set], which copies the key data
    out of its struct. *)
Definition set (keyLocatorStruct : ndn_KeyLocator) (this : t Memory.addr)
  : Memory.M (t Memory.addr) :=
  b ← Blob.of_pointer (ndn_keyData keyLocatorStruct)
                      (ndn_keyDataLength keyLocatorStruct);
  mret (mk b).

(** The field values of a key locator in heap [h]. *)
Definition view (h : Memory.Heap) (this : t Memory.addr) : t bytes :=
  mk (Blob.contents h (keyData_ this)).

(** The heap addresses a key locator refers to. *)
Definition addrs (this : t Memory.addr) : list Memory.addr :=
  Blob.addrs (keyData_ this).

(** The field values a key locator struct stands for in heap [h]. *)
Definition read (h : Memory.Heap) (keyLocatorStruct : ndn_KeyLocator)
  : option (t bytes) :=
  b ← Blob.read h (ndn_keyData keyLocatorStruct) (ndn_keyDataLength keyLocatorStruct);
  Some (mk b).

End KeyLocator.

(** ** The wire-format strategy

    The header of [WireFormat] is not among the sources. *)

Module WireFormat.

(** Modelled from the spec: what a call of [decodeData] leaves behind,
    "success|DecodeError": the packet and the codec state after a normal
    return, or after a thrown decode error ("the Data object's field values
    after a failed decode are unspecified"). *)
Inductive DecodeOutcome (D St : Type) : Type :=
  | Decoded (data : D) (st : St)
  | DecodeError (data : D) (st : St).
Arguments Decoded {D St}.
Arguments DecodeError {D St}.

(** Modelled from the spec: [WireFormat], the "pluggable strategy
    converting the in-memory model to/from one specific byte encoding",
    with the two operations [Data] calls: [encodeData(const Data&)], which
    returns a Blob, and
    [decodeData(Data&, const unsigned char *, unsigned int)], which updates
    the packet in place or throws.  [Data] calls both through a non-const
    reference, so an implementation may keep state of its own: [St] is that
    state and every call threads it.  [D] is the packet class, which
    [data.hpp] defines after it has seen this interface.  The pointer
    [input] is given by the bytes stored from that address on. *)
Record t (D St : Type) : Type := mk {
  encodeData : D → St → Blob.t bytes * St;
  decodeData : D → bytes → unsigned_int → St → DecodeOutcome D St
}.
Arguments mk {D St}.
Arguments encodeData {D St}.
Arguments decodeData {D St}.

(** Modelled from the spec: the static member behind
    [WireFormat::getDefaultWireFormat()], the one piece of "process-wide
    state": the default instance, once it has been resolved. *)
Record Process (D St : Type) : Type := mkProcess {
  defaultWireFormat_ : option (t D St)
}.
Arguments mkProcess {D St}.
Arguments defaultWireFormat_ {D St}.

(** Modelled from the spec: [WireFormat::getDefaultWireFormat()].  "Exactly
    one WireFormat instance is designated as the process-wide default,
    resolved lazily on first use and shared for the remainder of the
    process."  [initial] is the instance the first use resolves to. *)
Definition getDefaultWireFormat {D St} (initial : t D St) (p : Process D St)
  : t D St * Process D St :=
  match defaultWireFormat_ p with
  | Some wireFormat => (wireFormat, p)
  | None => (initial, mkProcess (Some initial))
  end.

(** A parameter [WireFormat& wireFormat = *WireFormat::getDefaultWireFormat()]:
    the default argument is evaluated by the call that leaves it out. *)
Definition argument {D St} (initial : t D St) (wireFormat : option (t D St))
    (p : Process D St) : t D St * Process D St :=
  match wireFormat with
  | Some explicit => (explicit, p)
  | None => getDefaultWireFormat initial p
  end.

(** Modelled from the spec: the contract of [encodeData], "a pure
    strategy" with "no hidden incrementing state": the bytes it returns
    depend on the packet alone, not on the state the codec is in. *)
Definition encode_stateless {D St} (wireFormat : t D St) : Prop :=
  ∀ (data : D) (st1 st2 : St),
    (encodeData wireFormat data st1).1 = (encodeData wireFormat data st2).1.

(** Modelled from the spec: the contract of [decodeData], "must fully
    populate or fail": when a decode succeeds, the packet it leaves is the
    one the input describes, whatever packet and codec state it started
    from. *)
Definition populates {D St} (wireFormat : t D St) : Prop :=
  ∀ (input : bytes) (inputLength : unsigned_int) (data1 : D) (st1 : St)
    (data' : D) (st' : St),
    decodeData wireFormat data1 input inputLength st1 = Decoded data' st' →
    ∀ (data2 : D) (st2 : St),
      ∃ st'', decodeData wireFormat data2 input inputLength st2 = Decoded data' st''.

(** Modelled from the spec: the contract of [encodeData], "must encode all
    present fields": the bytes tell the fields, so two packets with the
    same encoding have the same fields.  [same] says when two packets have
    the same fields. *)
Definition encodes_all_fields {D St} (same : D → D → Prop) (wireFormat : t D St)
  : Prop :=
  ∀ (data1 data2 : D) (st1 st2 : St),
    (encodeData wireFormat data1 st1).1 = (encodeData wireFormat data2 st2).1 →
    same data1 data2.

(** Modelled from the spec: the contract of [decodeData], "must reject
    truncated or structurally invalid input with a DecodeError rather than
    reading past the provided length": what it does depends on the
    [inputLength] bytes at [input] only. *)
Definition reads_within_length {D St} (wireFormat : t D St) : Prop :=
  ∀ (data : D) (input : bytes) (inputLength : unsigned_int) (st : St),
    decodeData wireFormat data input inputLength st
    = decodeData wireFormat data (take (N.to_nat inputLength) input) inputLength st.

(** Modelled from the spec: the contract of the interface, the requirements
    of its section on [WireFormat] together. *)
Record Contract {D St} (same : D → D → Prop) (wireFormat : t D St) : Prop := {
  contract_encode_stateless : encode_stateless wireFormat;
  contract_encodes_all_fields : encodes_all_fields same wireFormat;
  contract_populates : populates wireFormat;
  contract_reads_within_length : reads_within_length wireFormat
}.


End WireFormat.

(** ** Signature *)

Module Signature.

Record t (R : Type) : Type := mk {
  digestAlgorithm_ : Blob.t R;
  witness_ : Blob.t R;
  signature_ : Blob.t R;
  publisherPublicKeyDigest_ : PublisherPublicKeyDigest.t R;
  keyLocator_ : KeyLocator.t R
}.
Arguments mk {R}.
Arguments digestAlgorithm_ {R}.
Arguments witness_ {R}.
Arguments signature_ {R}.
Arguments publisherPublicKeyDigest_ {R}.
Arguments keyLocator_ {R}.

(** The implicit default constructor: every member is default-constructed. *)
Definition ctor {R} : t R :=
  mk Blob.null Blob.null Blob.null PublisherPublicKeyDigest.ctor KeyLocator.ctor.

(** The accessors.  The const and the non-const overload of
    [getPublisherPublicKeyDigest] and of [getKeyLocator] read the same
    member. *)
Definition getDigestAlgorithm {R} (this : t R) : Blob.t R := digestAlgorithm_ this.

Definition getWitness {R} (this : t R) : Blob.t R := witness_ this.

Definition getSignature {R} (this : t R) : Blob.t R := signature_ this.

Definition getPublisherPublicKeyDigest {R} (this : t R) : PublisherPublicKeyDigest.t R :=
  publisherPublicKeyDigest_ this.

Definition getKeyLocator {R} (this : t R) : KeyLocator.t R := keyLocator_ this.

(** The setters of the three byte values.  Each has an overload for a
    [const std::vector<unsigned char>&], a reference to a live vector, and
    one for a pointer and a length; both build a Blob and assign it. *)
Definition setDigestAlgorithm_vector (digestAlgorithm : Memory.addr)
    (this : t Memory.addr) : Memory.M (t Memory.addr) :=
  b ← Blob.of_vector digestAlgorithm;
  mret (mk b (witness_ this) (signature_ this)
             (publisherPublicKeyDigest_ this) (keyLocator_ this)).

Definition setDigestAlgorithm_pointer (digestAlgorithm : Memory.pointer)
    (digestAlgorithmLength : unsigned_int) (this : t Memory.addr)
  : Memory.M (t Memory.addr) :=
  b ← Blob.of_pointer digestAlgorithm digestAlgorithmLength;
  mret (mk b (witness_ this) (signature_ this)
             (publisherPublicKeyDigest_ this) (keyLocator_ this)).

Definition setWitness_vector (witness : Memory.addr) (this : t Memory.addr)
  : Memory.M (t Memory.addr) :=
  b ← Blob.of_vector witness;
  mret (mk (digestAlgorithm_ this) b (signature_ this)
             (publisherPublicKeyDigest_ this) (keyLocator_ this)).

Definition setWitness_pointer (witness : Memory.pointer)
    (witnessLength : unsigned_int) (this : t Memory.addr)
  : Memory.M (t Memory.addr) :=
  b ← Blob.of_pointer witness witnessLength;
  mret (mk (digestAlgorithm_ this) b (signature_ this)
             (publisherPublicKeyDigest_ this) (keyLocator_ this)).

Definition setSignature_vector (signature : Memory.addr) (this : t Memory.addr)
  : Memory.M (t Memory.addr) :=
  b ← Blob.of_vector signature;
  mret (mk (digestAlgorithm_ this) (witness_ this) b
             (publisherPublicKeyDigest_ this) (keyLocator_ this)).

Definition setSignature_pointer (signature : Memory.pointer)
    (signatureLength : unsigned_int) (this : t Memory.addr)
  : Memory.M (t Memory.addr) :=
  b ← Blob.of_pointer signature signatureLength;
  mret (mk (digestAlgorithm_ this) (witness_ this) b
             (publisherPublicKeyDigest_ this) (keyLocator_ this)).

(** The setters of the two identity references assign a copy of the
    object. *)
Definition setPublisherPublicKeyDigest {R}
    (publisherPublicKeyDigest : PublisherPublicKeyDigest.t R) (this : t R) : t R :=
  mk (digestAlgorithm_ this) (witness_ this) (signature_ this)
     publisherPublicKeyDigest (keyLocator_ this).

Definition setKeyLocator {R} (keyLocator : KeyLocator.t R) (this : t R) : t R :=
  mk (digestAlgorithm_ this) (witness_ this) (signature_ this)
     (publisherPublicKeyDigest_ this) keyLocator.

(** "Clear all the fields." *)
Definition clear {R} (this : t R) : t R :=
  mk (Blob.reset (digestAlgorithm_ this))
     (Blob.reset (witness_ this))
     (Blob.reset (signature_ this))
     (PublisherPublicKeyDigest.clear (publisherPublicKeyDigest_ this))
     (KeyLocator.clear (keyLocator_ this)).

(** Modelled from the spec: [Signature::set] is declared here and defined
    in a file that is not among the sources.  Its comment: "Clear this
    signature, and set the values by copying from the ndn_Signature
    struct." *)
Definition set (signatureStruct : ndn_Signature) (this : t Memory.addr)
  : Memory.M (t Memory.addr) :=
  let this := clear this in
  digestAlgorithm ← Blob.of_pointer (ndn_digestAlgorithm signatureStruct)
                                    (ndn_digestAlgorithmLength signatureStruct);
  witness ← Blob.of_pointer (ndn_witness signatureStruct)
                            (ndn_witnessLength signatureStruct);
  signature ← Blob.of_pointer (ndn_signatureBits signatureStruct)
                              (ndn_signatureBitsLength signatureStruct);
  publisherPublicKeyDigest ←
    PublisherPublicKeyDigest.set (ndn_signerDigest signatureStruct)
                                 (publisherPublicKeyDigest_ this);
  keyLocator ← KeyLocator.set (ndn_keyLocator signatureStruct) (keyLocator_ this);
  mret (mk digestAlgorithm witness signature publisherPublicKeyDigest keyLocator).

(** The field values of a signature in heap [h]. *)
Definition view (h : Memory.Heap) (this : t Memory.addr) : t bytes :=
  mk (Blob.contents h (digestAlgorithm_ this))
     (Blob.contents h (witness_ this))
     (Blob.contents h (signature_ this))
     (PublisherPublicKeyDigest.view h (publisherPublicKeyDigest_ this))
     (KeyLocator.view h (keyLocator_ this)).

(** The heap addresses a signature refers to. *)
Definition addrs (this : t Memory.addr) : list Memory.addr :=
  Blob.addrs (digestAlgorithm_ this) ++ Blob.addrs (witness_ this)
  ++ Blob.addrs (signature_ this)
  ++ PublisherPublicKeyDigest.addrs (publisherPublicKeyDigest_ this)
  ++ KeyLocator.addrs (keyLocator_ this).

(** The field values a signature struct stands for in heap [h]. *)
Definition read (h : Memory.Heap) (signatureStruct : ndn_Signature)
  : option (t bytes) :=
  digestAlgorithm ← Blob.read h (ndn_digestAlgorithm signatureStruct)
                                (ndn_digestAlgorithmLength signatureStruct);
  witness ← Blob.read h (ndn_witness signatureStruct)
                        (ndn_witnessLength signatureStruct);
  signature ← Blob.read h (ndn_signatureBits signatureStruct)
                          (ndn_signatureBitsLength signatureStruct);
  publisherPublicKeyDigest ←
    PublisherPublicKeyDigest.read h (ndn_signerDigest signatureStruct);
  keyLocator ← KeyLocator.read h (ndn_keyLocator signatureStruct);
  Some (mk digestAlgorithm witness signature publisherPublicKeyDigest keyLocator).

End Signature.

(** ** MetaInfo *)

Module MetaInfo.

Record t (R : Type) : Type := mk {
  timestampMilliseconds_ : double;
  type_ : ndn_ContentType;
  freshnessSeconds_ : int;
  finalBlockID_ : Component.t R
}.
Arguments mk {R}.
Arguments timestampMilliseconds_ {R}.
Arguments type_ {R}.
Arguments freshnessSeconds_ {R}.
Arguments finalBlockID_ {R}.

(** [MetaInfo()].  The body assigns [type_] and [freshnessSeconds_];
    [finalBlockID_] is default-constructed; [timestampMilliseconds_] is a
    [double] with no initializer, so it keeps whatever the storage of the
    new object held: [indeterminate]. *)
Definition ctor {R} (indeterminate : double) : t R :=
  mk indeterminate ndn_ContentType_DATA (-1) Component.ctor.

(** The accessors. *)
Definition getTimestampMilliseconds {R} (this : t R) : double :=
  timestampMilliseconds_ this.

Definition getType {R} (this : t R) : ndn_ContentType := type_ this.

Definition getFreshnessSeconds {R} (this : t R) : int := freshnessSeconds_ this.

Definition getFinalBlockID {R} (this : t R) : Component.t R := finalBlockID_ this.

(** The setters of the scalar fields store their argument. *)
Definition setTimestampMilliseconds {R} (timestampMilliseconds : double)
    (this : t R) : t R :=
  mk timestampMilliseconds (type_ this) (freshnessSeconds_ this) (finalBlockID_ this).

Definition setType {R} (type : ndn_ContentType) (this : t R) : t R :=
  mk (timestampMilliseconds_ this) type (freshnessSeconds_ this) (finalBlockID_ this).

Definition setFreshnessSeconds {R} (freshnessSeconds : int) (this : t R) : t R :=
  mk (timestampMilliseconds_ this) (type_ this) freshnessSeconds (finalBlockID_ this).

(** The two overloads of [setFinalBlockID] build a [Name::Component] from
    the vector, or from the pointer and the length, and assign it. *)
Definition setFinalBlockID_vector (finalBlockID : Memory.addr)
    (this : t Memory.addr) : Memory.M (t Memory.addr) :=
  c ← Component.of_vector finalBlockID;
  mret (mk (timestampMilliseconds_ this) (type_ this) (freshnessSeconds_ this) c).

Definition setFinalBlockID_pointer (finalBlockID : Memory.pointer)
    (finalBlockIdLength : unsigned_int) (this : t Memory.addr)
  : Memory.M (t Memory.addr) :=
  c ← Component.of_pointer finalBlockID finalBlockIdLength;
  mret (mk (timestampMilliseconds_ this) (type_ this) (freshnessSeconds_ this) c).

(** Modelled from the spec: [MetaInfo::set] is declared here and defined
    in a file that is not among the sources.  Its comment: "Clear this meta
    info, and set the values by copying from the ndn_MetaInfo struct." *)
Definition set (metaInfoStruct : ndn_MetaInfo) (this : t Memory.addr)
  : Memory.M (t Memory.addr) :=
  finalBlockID ← Component.set (ndn_finalBlockID metaInfoStruct);
  mret (mk (ndn_timestampMilliseconds metaInfoStruct) (ndn_type metaInfoStruct)
           (ndn_freshnessSeconds metaInfoStruct) finalBlockID).

(** The field values of a meta info in heap [h]. *)
Definition view (h : Memory.Heap) (this : t Memory.addr) : t bytes :=
  mk (timestampMilliseconds_ this) (type_ this) (freshnessSeconds_ this)
     (Component.view h (finalBlockID_ this)).

(** The heap addresses a meta info refers to. *)
Definition addrs (this : t Memory.addr) : list Memory.addr :=
  Component.addrs (finalBlockID_ this).

(** The field values a meta info struct stands for in heap [h]. *)
Definition read (h : Memory.Heap) (metaInfoStruct : ndn_MetaInfo)
  : option (t bytes) :=
  finalBlockID ← Component.read h (ndn_finalBlockID metaInfoStruct);
  Some (mk (ndn_timestampMilliseconds metaInfoStruct) (ndn_type metaInfoStruct)
           (ndn_freshnessSeconds metaInfoStruct) finalBlockID).

End MetaInfo.

(** ** Data *)

Module Data.

Record t (R : Type) : Type := mk {
  signature_ : Signature.t R;
  name_ : Name.t R;
  metaInfo_ : MetaInfo.t R;
  content_ : Blob.t R
}.
Arguments mk {R}.
Arguments signature_ {R}.
Arguments name_ {R}.
Arguments metaInfo_ {R}.
Arguments content_ {R}.

(** [Data()]: every member is default-constructed; [indeterminate] is what
    [MetaInfo()] finds in the storage of [timestampMilliseconds_]. *)
Definition ctor {R} (indeterminate : double) : t R :=
  mk Signature.ctor Name.ctor (MetaInfo.ctor indeterminate) Blob.null.

(** [Data(const Name& name)]. *)
Definition ctor_name {R} (name : Name.t R) (indeterminate : double) : t R :=
  mk Signature.ctor name (MetaInfo.ctor indeterminate) Blob.null.

(** A packet whose Blobs are identified with their contents, the argument
    of a wire format. *)
Definition packet : Type := t bytes.

Section Wire.

Context {St : Type}.

Local Abbreviation Codec := (WireFormat.t packet St).

(** [wireEncode] is a [const] member and [encodeData] takes a
    [const Data&]: the call returns the encoding, and the packet it leaves
    behind is [this]. *)
Definition wireEncode (wireFormat : Codec) (this : packet) (st : St)
  : Blob.t bytes * packet * St :=
  let '(encoding, st') := WireFormat.encodeData wireFormat this st in
  (encoding, this, st').

(** [wireDecode(const unsigned char *input, unsigned int inputLength,
    WireFormat&)].  The pointer [input] is given by the bytes stored from
    that address on. *)
Definition wireDecode (input : bytes) (inputLength : unsigned_int)
    (wireFormat : Codec) (this : packet) (st : St)
  : WireFormat.DecodeOutcome packet St :=
  WireFormat.decodeData wireFormat this input inputLength st.

(** [wireDecode(const std::vector<unsigned char>& input, WireFormat&)].
    [input[0]] is outside an empty vector: the call has no defined result
    then ([None]).  Otherwise [&input[0]] points to the bytes of the vector,
    and [input.size()] is converted to [unsigned int]. *)
Definition wireDecode_vector (input : bytes) (wireFormat : Codec)
    (this : packet) (st : St) : option (WireFormat.DecodeOutcome packet St) :=
  match input !! 0%nat with
  | Some _ =>
      Some (wireDecode input (to_unsigned_int (N.of_nat (length input)))
                       wireFormat this st)
  | None => None
  end.

(** The calls as the caller writes them: the wire format is given or left
    out, and a default argument is resolved in the process state [p]. *)
Definition wireEncode_call (initial : Codec) (wireFormat : option Codec)
    (this : packet) (p : WireFormat.Process packet St) (st : St)
  : Blob.t bytes * packet * St * WireFormat.Process packet St :=
  let '(wf, p') := WireFormat.argument initial wireFormat p in
  (wireEncode wf this st, p').

Definition wireDecode_call (initial : Codec) (input : bytes)
    (inputLength : unsigned_int) (wireFormat : option Codec)
    (this : packet) (p : WireFormat.Process packet St) (st : St)
  : WireFormat.DecodeOutcome packet St * WireFormat.Process packet St :=
  let '(wf, p') := WireFormat.argument initial wireFormat p in
  (wireDecode input inputLength wf this st, p').

Definition wireDecode_vector_call (initial : Codec) (input : bytes)
    (wireFormat : option Codec)
    (this : packet) (p : WireFormat.Process packet St) (st : St)
  : option (WireFormat.DecodeOutcome packet St) * WireFormat.Process packet St :=
  let '(wf, p') := WireFormat.argument initial wireFormat p in
  (wireDecode_vector input wf this st, p').

End Wire.

(** The accessors; the const and the non-const overloads read the same
    member. *)
Definition getSignature {R} (this : t R) : Signature.t R := signature_ this.

Definition getName {R} (this : t R) : Name.t R := name_ this.

Definition getMetaInfo {R} (this : t R) : MetaInfo.t R := metaInfo_ this.

Definition getContent {R} (this : t R) : Blob.t R := content_ this.

(** The setters of the three objects assign a copy of the object. *)
Definition setSignature {R} (signature : Signature.t R) (this : t R) : t R :=
  mk signature (name_ this) (metaInfo_ this) (content_ this).

Definition setName {R} (name : Name.t R) (this : t R) : t R :=
  mk (signature_ this) name (metaInfo_ this) (content_ this).

Definition setMetainfo {R} (metaInfo : MetaInfo.t R) (this : t R) : t R :=
  mk (signature_ this) (name_ this) metaInfo (content_ this).

(** "Set the content to a copy of the data in the vector." *)
Definition setContent_vector (content : Memory.addr) (this : t Memory.addr)
  : Memory.M (t Memory.addr) :=
  b ← Blob.of_vector content;
  mret (mk (signature_ this) (name_ this) (metaInfo_ this) b).

(** The overload for a pointer and a length. *)
Definition setContent_pointer (content : Memory.pointer)
    (contentLength : unsigned_int) (this : t Memory.addr)
  : Memory.M (t Memory.addr) :=
  b ← Blob.of_pointer content contentLength;
  mret (mk (signature_ this) (name_ this) (metaInfo_ this) b).

(** "Set content to point to an existing byte array. [...] This takes
    another reference and does not copy the bytes."  The overload for
    [shared_ptr<std::vector<unsigned char> >]. *)
Definition setContent_shared_ptr (content : option Memory.addr)
    (this : t Memory.addr) : t Memory.addr :=
  mk (signature_ this) (name_ this) (metaInfo_ this) (Blob.of_shared_ptr content).

(** The overload for [shared_ptr<const std::vector<unsigned char> >]. *)
Definition setContent_shared_ptr_const (content : option Memory.addr)
    (this : t Memory.addr) : t Memory.addr :=
  mk (signature_ this) (name_ this) (metaInfo_ this) (Blob.of_shared_ptr content).

(** Modelled from the spec: [Data::set] is declared here and defined in a
    file that is not among the sources.  Its comment: "Clear this data
    object, and set the values by copying from the ndn_Data struct."; the
    spec: "clears the Data object and copies values out of the external
    representation into owned storage". *)
Definition set (dataStruct : ndn_Data) (this : t Memory.addr)
  : Memory.M (t Memory.addr) :=
  signature ← Signature.set (ndn_signature dataStruct) (signature_ this);
  name ← Name.set (ndn_name dataStruct) (name_ this);
  metaInfo ← MetaInfo.set (ndn_metaInfo dataStruct) (metaInfo_ this);
  content ← Blob.of_pointer (ndn_content dataStruct) (ndn_contentLength dataStruct);
  mret (mk signature name metaInfo content).

(** The field values of a packet in heap [h]. *)
Definition view (h : Memory.Heap) (this : t Memory.addr) : packet :=
  mk (Signature.view h (signature_ this))
     (Name.view h (name_ this))
     (MetaInfo.view h (metaInfo_ this))
     (Blob.contents h (content_ this)).

(** The heap addresses a packet refers to. *)
Definition addrs (this : t Memory.addr) : list Memory.addr :=
  Signature.addrs (signature_ this) ++ Name.addrs (name_ this)
  ++ MetaInfo.addrs (metaInfo_ this) ++ Blob.addrs (content_ this).

(** The field values an [ndn_Data] struct stands for in heap [h]; none when
    one of its pointers does not lead to enough live bytes. *)
Definition read (h : Memory.Heap) (dataStruct : ndn_Data) : option packet :=
  signature ← Signature.read h (ndn_signature dataStruct);
  name ← Name.read h (ndn_name dataStruct);
  metaInfo ← MetaInfo.read h (ndn_metaInfo dataStruct);
  content ← Blob.read h (ndn_content dataStruct) (ndn_contentLength dataStruct);
  Some (mk signature name metaInfo content).

End Data.

(** ** The declared interface

    The public member functions of the three classes, in the order of the
    header, each with the kinds of its parameters. *)

Inductive parameter : Type :=
  | by_struct_ref          (* a C struct, by reference *)
  | by_vector_ref          (* const std::vector<unsigned char>& *)
  | by_pointer             (* const unsigned char * *)
  | by_length              (* unsigned int *)
  | by_shared_ptr          (* const ptr_lib::shared_ptr<...>& *)
  | by_object_ref          (* another object of the model, by const reference *)
  | by_scalar              (* double, int, ndn_ContentType *)
  | by_wire_format_ref.    (* WireFormat&, with a default argument *)

(** A member function: its name and its parameters. *)
Definition member : Type := string * list parameter.

(** [class Signature]; its constructors are implicit. *)
Definition Signature_members : list member :=
  [ ("get", [by_struct_ref]); ("set", [by_struct_ref]);
    ("getDigestAlgorithm", []); ("getWitness", []); ("getSignature", []);
    ("getPublisherPublicKeyDigest", []); ("getPublisherPublicKeyDigest", []);
    ("getKeyLocator", []); ("getKeyLocator", []);
    ("setDigestAlgorithm", [by_vector_ref]); ("setDigestAlgorithm", [by_pointer; by_length]);
    ("setWitness", [by_vector_ref]); ("setWitness", [by_pointer; by_length]);
    ("setSignature", [by_vector_ref]); ("setSignature", [by_pointer; by_length]);
    ("setPublisherPublicKeyDigest", [by_object_ref]);
    ("setKeyLocator", [by_object_ref]);
    ("clear", []) ]%string.

(** [class MetaInfo]. *)
Definition MetaInfo_members : list member :=
  [ ("MetaInfo", []);
    ("get", [by_struct_ref]); ("set", [by_struct_ref]);
    ("getTimestampMilliseconds", []); ("getType", []);
    ("getFreshnessSeconds", []); ("getFinalBlockID", []);
    ("setTimestampMilliseconds", [by_scalar]); ("setType", [by_scalar]);
    ("setFreshnessSeconds", [by_scalar]);
    ("setFinalBlockID", [by_vector_ref]); ("setFinalBlockID", [by_pointer; by_length]) ]%string.

(** [class Data]. *)
Definition Data_members : list member :=
  [ ("Data", []); ("Data", [by_object_ref]);
    ("wireEncode", [by_wire_format_ref]);
    ("wireDecode", [by_pointer; by_length; by_wire_format_ref]);
    ("wireDecode", [by_vector_ref; by_wire_format_ref]);
    ("get", [by_struct_ref]); ("set", [by_struct_ref]);
    ("getSignature", []); ("getSignature", []);
    ("getName", []); ("getName", []);
    ("getMetaInfo", []); ("getMetaInfo", []);
    ("getContent", []);
    ("setSignature", [by_object_ref]); ("setName", [by_object_ref]);
    ("setMetainfo", [by_object_ref]);
    ("setContent", [by_vector_ref]); ("setContent", [by_pointer; by_length]);
    ("setContent", [by_shared_ptr]); ("setContent", [by_shared_ptr]) ]%string.

(** Equality of parameter kinds. *)
Definition parameter_eqb (x y : parameter) : bool :=
  match x, y with
  | by_struct_ref, by_struct_ref | by_vector_ref, by_vector_ref | by_pointer, by_pointer
  | by_length, by_length | by_shared_ptr, by_shared_ptr | by_object_ref, by_object_ref
  | by_scalar, by_scalar | by_wire_format_ref, by_wire_format_ref => true
  | _, _ => false
  end.

(** Does a class declare a member function of that name? *)
Definition declares (members : list member) (name : string) : bool :=
  existsb (λ m : member, String.eqb m.1 name) members.

(** Does a class declare a member function that takes a shared pointer? *)
Definition takes_shared_ptr (m : member) : bool :=
  existsb (parameter_eqb by_shared_ptr) m.2.

(** ** Field equality of packets

    "Equality defined field-by-field: name, metaInfo fields, signature
    fields, content bytes."  Byte values are compared by their bytes, the
    other fields by their values. *)
Definition field_equal (d1 d2 : Data.packet) : Prop :=
  ((λ c, Blob.buf (Component.value_ c)) <$> Data.getName d1)
  = ((λ c, Blob.buf (Component.value_ c)) <$> Data.getName d2)
  ∧ (MetaInfo.getTimestampMilliseconds (Data.getMetaInfo d1)
       = MetaInfo.getTimestampMilliseconds (Data.getMetaInfo d2)
     ∧ MetaInfo.getType (Data.getMetaInfo d1) = MetaInfo.getType (Data.getMetaInfo d2)
     ∧ MetaInfo.getFreshnessSeconds (Data.getMetaInfo d1)
       = MetaInfo.getFreshnessSeconds (Data.getMetaInfo d2)
     ∧ Blob.same (Component.value_ (MetaInfo.getFinalBlockID (Data.getMetaInfo d1)))
                 (Component.value_ (MetaInfo.getFinalBlockID (Data.getMetaInfo d2))))
  ∧ (Blob.same (Signature.getDigestAlgorithm (Data.getSignature d1))
               (Signature.getDigestAlgorithm (Data.getSignature d2))
     ∧ Blob.same (Signature.getWitness (Data.getSignature d1))
                 (Signature.getWitness (Data.getSignature d2))
     ∧ Blob.same (Signature.getSignature (Data.getSignature d1))
                 (Signature.getSignature (Data.getSignature d2))
     ∧ Blob.same (PublisherPublicKeyDigest.publisherPublicKeyDigest_
                    (Signature.getPublisherPublicKeyDigest (Data.getSignature d1)))
                 (PublisherPublicKeyDigest.publisherPublicKeyDigest_
                    (Signature.getPublisherPublicKeyDigest (Data.getSignature d2)))
     ∧ Blob.same (KeyLocator.keyData_ (Signature.getKeyLocator (Data.getSignature d1)))
                 (KeyLocator.keyData_ (Signature.getKeyLocator (Data.getSignature d2))))
  ∧ Blob.same (Data.getContent d1) (Data.getContent d2).

(** ** A wire format to instantiate the contract

    A self-delimiting encoding of every field, in the order signature,
    name, meta info, content.  It keeps a count of the calls it served as
    state of its own, which no result depends on. *)

Module Plain.

Import Byte.

Definition enc_bool (b : bool) : bytes := [if b then x01 else x00].

Definition dec_bool (input : bytes) : option (bool * bytes) :=
  match input with
  | x00 :: rest => Some (false, rest)
  | x01 :: rest => Some (true, rest)
  | _ => None
  end.

(** Binary digits, lowest first, closed by a zero byte. *)
Fixpoint enc_positive (p : positive) : bytes :=
  match p with
  | xH => [x00]
  | xO q => x01 :: enc_positive q
  | xI q => x02 :: enc_positive q
  end.

Fixpoint dec_positive (input : bytes) : option (positive * bytes) :=
  match input with
  | x00 :: rest => Some (xH, rest)
  | x01 :: rest => '(q, rest') ← dec_positive rest; Some (xO q, rest')
  | x02 :: rest => '(q, rest') ← dec_positive rest; Some (xI q, rest')
  | _ => None
  end.

Definition enc_N (n : N) : bytes :=
  match n with
  | N0 => [x00]
  | Npos p => x01 :: enc_positive p
  end.

Definition dec_N (input : bytes) : option (N * bytes) :=
  match input with
  | x00 :: rest => Some (N0, rest)
  | x01 :: rest => '(p, rest') ← dec_positive rest; Some (Npos p, rest')
  | _ => None
  end.

Definition enc_Z (z : Z) : bytes :=
  match z with
  | Z0 => [x00]
  | Zpos p => x01 :: enc_positive p
  | Zneg p => x02 :: enc_positive p
  end.

Definition dec_Z (input : bytes) : option (Z * bytes) :=
  match input with
  | x00 :: rest => Some (Z0, rest)
  | x01 :: rest => '(p, rest') ← dec_positive rest; Some (Zpos p, rest')
  | x02 :: rest => '(p, rest') ← dec_positive rest; Some (Zneg p, rest')
  | _ => None
  end.

(** A byte string: its length, then its bytes. *)
Definition enc_bytes (v : bytes) : bytes := enc_N (N.of_nat (length v)) ++ v.

Definition dec_bytes (input : bytes) : option (bytes * bytes) :=
  '(n, rest) ← dec_N input;
  if decide (N.to_nat n ≤ length rest)%nat
  then Some (take (N.to_nat n) rest, drop (N.to_nat n) rest)
  else None.

(** A Blob: absent, or present with its bytes. *)
Definition enc_blob (b : Blob.t bytes) : bytes :=
  match b with
  | None => [x00]
  | Some v => x01 :: enc_bytes v
  end.

Definition dec_blob (input : bytes) : option (Blob.t bytes * bytes) :=
  match input with
  | x00 :: rest => Some (None, rest)
  | x01 :: rest => '(v, rest') ← dec_bytes rest; Some (Some v, rest')
  | _ => None
  end.

Definition enc_double (x : double) : bytes :=
  match x with
  | S754_zero s => x00 :: enc_bool s
  | S754_infinity s => x01 :: enc_bool s
  | S754_nan => [x02]
  | S754_finite s m e => x03 :: enc_bool s ++ enc_positive m ++ enc_Z e
  end.

Definition dec_double (input : bytes) : option (double * bytes) :=
  match input with
  | x00 :: rest => '(s, rest') ← dec_bool rest; Some (S754_zero s, rest')
  | x01 :: rest => '(s, rest') ← dec_bool rest; Some (S754_infinity s, rest')
  | x02 :: rest => Some (S754_nan, rest)
  | x03 :: rest =>
      '(s, rest1) ← dec_bool rest;
      '(m, rest2) ← dec_positive rest1;
      '(e, rest3) ← dec_Z rest2;
      Some (S754_finite s m e, rest3)
  | _ => None
  end.

Definition enc_type (type : ndn_ContentType) : bytes :=
  match type with
  | ndn_ContentType_DATA => [x00]
  | ndn_ContentType_other code => x01 :: enc_Z code
  end.

Definition dec_type (input : bytes) : option (ndn_ContentType * bytes) :=
  match input with
  | x00 :: rest => Some (ndn_ContentType_DATA, rest)
  | x01 :: rest => '(code, rest') ← dec_Z rest; Some (ndn_ContentType_other code, rest')
  | _ => None
  end.

Definition enc_component (c : Component.t bytes) : bytes :=
  enc_blob (Component.value_ c).

Definition dec_component (input : bytes) : option (Component.t bytes * bytes) :=
  '(b, rest) ← dec_blob input; Some (Component.mk b, rest).

(** A name: the number of components, then the components. *)
Fixpoint enc_components (name : Name.t bytes) : bytes :=
  match name with
  | [] => []
  | c :: rest => enc_component c ++ enc_components rest
  end.

Fixpoint dec_components (count : nat) (input : bytes)
  : option (Name.t bytes * bytes) :=
  match count with
  | O => Some ([], input)
  | S count' =>
      '(c, rest) ← dec_component input;
      '(name, rest') ← dec_components count' rest;
      Some (c :: name, rest')
  end.

Definition enc_name (name : Name.t bytes) : bytes :=
  enc_N (N.of_nat (length name)) ++ enc_components name.

Definition dec_name (input : bytes) : option (Name.t bytes * bytes) :=
  '(count, rest) ← dec_N input; dec_components (N.to_nat count) rest.

Definition enc_signature (s : Signature.t bytes) : bytes :=
  enc_blob (Signature.digestAlgorithm_ s)
  ++ enc_blob (Signature.witness_ s)
  ++ enc_blob (Signature.signature_ s)
  ++ enc_blob (PublisherPublicKeyDigest.publisherPublicKeyDigest_
                 (Signature.publisherPublicKeyDigest_ s))
  ++ enc_blob (KeyLocator.keyData_ (Signature.keyLocator_ s)).

Definition dec_signature (input : bytes) : option (Signature.t bytes * bytes) :=
  '(digestAlgorithm, rest1) ← dec_blob input;
  '(witness, rest2) ← dec_blob rest1;
  '(signature, rest3) ← dec_blob rest2;
  '(digest, rest4) ← dec_blob rest3;
  '(keyData, rest5) ← dec_blob rest4;
  Some (Signature.mk digestAlgorithm witness signature
          (PublisherPublicKeyDigest.mk digest) (KeyLocator.mk keyData), rest5).

Definition enc_metaInfo (m : MetaInfo.t bytes) : bytes :=
  enc_double (MetaInfo.timestampMilliseconds_ m)
  ++ enc_type (MetaInfo.type_ m)
  ++ enc_Z (MetaInfo.freshnessSeconds_ m)
  ++ enc_component (MetaInfo.finalBlockID_ m).

Definition dec_metaInfo (input : bytes) : option (MetaInfo.t bytes * bytes) :=
  '(timestampMilliseconds, rest1) ← dec_double input;
  '(type, rest2) ← dec_type rest1;
  '(freshnessSeconds, rest3) ← dec_Z rest2;
  '(finalBlockID, rest4) ← dec_component rest3;
  Some (MetaInfo.mk timestampMilliseconds type freshnessSeconds finalBlockID, rest4).

Definition enc_data (d : Data.packet) : bytes :=
  enc_signature (Data.signature_ d)
  ++ enc_name (Data.name_ d)
  ++ enc_metaInfo (Data.metaInfo_ d)
  ++ enc_blob (Data.content_ d).

Definition dec_data (input : bytes) : option (Data.packet * bytes) :=
  '(signature, rest1) ← dec_signature input;
  '(name, rest2) ← dec_name rest1;
  '(metaInfo, rest3) ← dec_metaInfo rest2;
  '(content, rest4) ← dec_blob rest3;
  Some (Data.mk signature name metaInfo content, rest4).

(** The wire format: [decodeData] reads the [inputLength] bytes at [input]
    and accepts them when they are one encoded packet and nothing more; on
    any other input it throws and leaves the packet as it was. *)
Definition wireFormat : WireFormat.t Data.packet nat :=
  WireFormat.mk
    (λ data calls, (Some (enc_data data), S calls))
    (λ data input inputLength calls,
       match dec_data (take (N.to_nat inputLength) input) with
       | Some (data', []) => WireFormat.Decoded data' (S calls)
       | _ => WireFormat.DecodeError data (S calls)
       end).

(** The packet of the scenario: name a/b, content 1 2 3, type DATA, no
    freshness period, no timestamp. *)
Definition sample : Data.packet :=
  Data.mk Signature.ctor
    [Component.mk (Some ["a"%byte]); Component.mk (Some ["b"%byte])]
    (MetaInfo.mk double_none ndn_ContentType_DATA (-1) Component.ctor)
    (Some [x01; x02; x03]).

End Plain.

(** ** Wire formats that keep the letter of the interface only

    Three variations of the plain wire format.  Each can be handed to
    [Data::wireEncode] and [Data::wireDecode], which take any
    [WireFormat&]. *)

(** A wire format whose two directions disagree: it writes the components
    of the name first to last and reads them last to first.  It encodes
    every field, and its decoder populates every field or fails. *)
Module Mismatched.

Definition wireFormat : WireFormat.t Data.packet nat :=
  WireFormat.mk
    (λ data calls, (Some (Plain.enc_data data), S calls))
    (λ data input inputLength calls,
       match Plain.dec_data (take (N.to_nat inputLength) input) with
       | Some (data', []) =>
           WireFormat.Decoded
             (Data.mk (Data.signature_ data') (reverse (Data.name_ data'))
                      (Data.metaInfo_ data') (Data.content_ data'))
             (S calls)
       | _ => WireFormat.DecodeError data (S calls)
       end).

End Mismatched.

(** A wire format whose decoder leaves the name of the packet alone: it
    overwrites the signature, the meta info and the content. *)
Module KeepsName.

Definition wireFormat : WireFormat.t Data.packet nat :=
  WireFormat.mk
    (λ data calls, (Some (Plain.enc_data data), S calls))
    (λ data input inputLength calls,
       match Plain.dec_data (take (N.to_nat inputLength) input) with
       | Some (data', []) =>
           WireFormat.Decoded
             (Data.mk (Data.signature_ data') (Data.name_ data)
                      (Data.metaInfo_ data') (Data.content_ data'))
             (S calls)
       | _ => WireFormat.DecodeError data (S calls)
       end).

End KeepsName.

(** A wire format that numbers the packets it encodes: the encoding starts
    with the count of the calls served so far. *)
Module Counting.

Definition wireFormat : WireFormat.t Data.packet nat :=
  WireFormat.mk
    (λ data calls,
       (Some (Plain.enc_N (N.of_nat calls) ++ Plain.enc_data data), S calls))
    (λ data input inputLength calls,
       match
         '(_, rest) ← Plain.dec_N (take (N.to_nat inputLength) input);
         Plain.dec_data rest
       with
       | Some (data', []) => WireFormat.Decoded data' (S calls)
       | _ => WireFormat.DecodeError data (S calls)
       end).

End Counting.

(** ** Owned copies

    [stores_copy field source v m h]: run in heap [h], the setter [m]
    returns, and the Blob [field] of the object it leaves gives access to
    the bytes [v]; it still does after the buffer [source] the bytes came
    from has been overwritten or deallocated, and in every heap that later
    code can reach without touching the buffers allocated by the call. *)
Definition stores_copy {A : Type} (field : A → Blob.t Memory.addr)
    (source : option Memory.addr) (v : bytes) (m : Memory.M A)
    (h : Memory.Heap) : Prop :=
  ∃ (x : A) (h' : Memory.Heap),
    m h = Some (x, h')
    ∧ Blob.contents h' (field x) = Some v
    ∧ (∀ (a : Memory.addr) (w : bytes), source = Some a →
         Blob.contents (Memory.store a w h') (field x) = Some v)
    ∧ (∀ a : Memory.addr, source = Some a →
         Blob.contents (Memory.free a h') (field x) = Some v)
    ∧ (∀ h'' : Memory.Heap,
         Memory.keeps_new h h' h'' → Blob.contents h'' (field x) = Some v).

(** The buffer a pointer leads into. *)
Definition buffer_of (p : Memory.pointer) : option Memory.addr :=
  match p with
  | Memory.null => None
  | Memory.at_ a _ => Some a
  end.

(** [copied view addrs m h v]: run in heap [h], [m] returns an object whose
    field values are [v]; it only allocated, and every address the object
    refers to is one it allocated. *)
Definition copied {A V : Type} (view : Memory.Heap → A → V)
    (addrs : A → list Memory.addr) (m : Memory.M A) (h : Memory.Heap) (v : V) : Prop :=
  ∃ (x : A) (h' : Memory.Heap),
    m h = Some (x, h')
    ∧ h `prefix_of` h'
    ∧ Forall (λ a : Memory.addr, (length h ≤ a < length h')%nat) (addrs x)
    ∧ view h' x = v.

(** A view that looks at the heap only through the addresses of the
    object. *)
Definition local_view {A V : Type} (view : Memory.Heap → A → V)
    (addrs : A → list Memory.addr) : Prop :=
  ∀ (h1 h2 : Memory.Heap) (x : A),
    Forall (λ a : Memory.addr, h1 !! a = h2 !! a) (addrs x) → view h1 x = view h2 x.

(** ** A struct to copy from

    A heap with two buffers, the bytes "ab" and the bytes 1 2 3, and an
    [ndn_Data] struct over them: the name a/b, the content 1 2 3, type DATA,
    no timestamp, no freshness period, every other value a null pointer of
    length 0. *)
Module Sample.

Import Byte.

Definition heap : Memory.Heap := [Some ["a"%byte; "b"%byte]; Some [x01; x02; x03]].

Definition absent : ndn_NameComponent :=
  {| ndn_value := Memory.null; ndn_valueLength := 0%N |}.

Definition dataStruct : ndn_Data :=
  {| ndn_signature :=
       {| ndn_digestAlgorithm := Memory.null; ndn_digestAlgorithmLength := 0%N;
          ndn_witness := Memory.null; ndn_witnessLength := 0%N;
          ndn_signatureBits := Memory.null; ndn_signatureBitsLength := 0%N;
          ndn_signerDigest :=
            {| ndn_publisherPublicKeyDigest := Memory.null;
               ndn_publisherPublicKeyDigestLength := 0%N |};
          ndn_keyLocator := {| ndn_keyData := Memory.null; ndn_keyDataLength := 0%N |} |};
     ndn_name :=
       {| ndn_components :=
            [ {| ndn_value := Memory.at_ 0%nat 0%nat; ndn_valueLength := 1%N |};
              {| ndn_value := Memory.at_ 0%nat 1%nat; ndn_valueLength := 1%N |} ] |};
     ndn_metaInfo :=
       {| ndn_timestampMilliseconds := double_none;
          ndn_type := ndn_ContentType_DATA;
          ndn_freshnessSeconds := -1;
          ndn_finalBlockID := absent |};
     ndn_content := Memory.at_ 1%nat 0%nat;
     ndn_contentLength := 3%N |}.

(** The field values of the struct: a null pointer of length 0 stands for
    zero bytes. *)
Definition values : Data.packet :=
  Data.mk
    (Signature.mk (Some []) (Some []) (Some [])
       (PublisherPublicKeyDigest.mk (Some [])) (KeyLocator.mk (Some [])))
    [Component.mk (Some ["a"%byte]); Component.mk (Some ["b"%byte])]
    (MetaInfo.mk double_none ndn_ContentType_DATA (-1) (Component.mk (Some [])))
    (Some [x01; x02; x03]).

End Sample.

(** ** Updates in place

    [allocated h l]: every address of [l] has been handed out in [h]; an
    object whose addresses are allocated has no Blob that a later
    allocation could land on. *)
Definition allocated (h : Memory.Heap) (l : list Memory.addr) : Prop :=
  Forall (λ a : Memory.addr, (a < length h)%nat) l.

(** [updates view addrs expected m h]: run in heap [h], the setter [m]
    returns; it only allocated; the object it leaves has the field values
    [expected], and all its addresses are allocated. *)
Definition updates {A V : Type} (view : Memory.Heap → A → V)
    (addrs : A → list Memory.addr) (expected : V) (m : Memory.M A)
    (h : Memory.Heap) : Prop :=
  ∃ (x : A) (h' : Memory.Heap),
    m h = Some (x, h')
    ∧ h `prefix_of` h'
    ∧ view h' x = expected
    ∧ allocated h' (addrs x).

(** ** Sequences of setter calls

    [last_set arg original calls]: the argument of the last call of [calls]
    that [arg] selects, or [original] when there is none. *)
Definition last_set {A C : Type} (arg : C → option A) (original : A)
    (calls : list C) : A :=
  default original (last (omap arg calls)).

(** The calls of the scalar setters of [MetaInfo]. *)
Inductive MetaInfo_call : Type :=
  | call_setTimestampMilliseconds (timestampMilliseconds : double)
  | call_setType (type : ndn_ContentType)
  | call_setFreshnessSeconds (freshnessSeconds : int).

Definition MetaInfo_do {R} (c : MetaInfo_call) (this : MetaInfo.t R) : MetaInfo.t R :=
  match c with
  | call_setTimestampMilliseconds x => MetaInfo.setTimestampMilliseconds x this
  | call_setType x => MetaInfo.setType x this
  | call_setFreshnessSeconds x => MetaInfo.setFreshnessSeconds x this
  end.

Definition MetaInfo_run {R} (calls : list MetaInfo_call) (this : MetaInfo.t R)
  : MetaInfo.t R :=
  foldl (λ m c, MetaInfo_do c m) this calls.

Definition timestampMilliseconds_set (c : MetaInfo_call) : option double :=
  match c with call_setTimestampMilliseconds x => Some x | _ => None end.

Definition type_set (c : MetaInfo_call) : option ndn_ContentType :=
  match c with call_setType x => Some x | _ => None end.

Definition freshnessSeconds_set (c : MetaInfo_call) : option int :=
  match c with call_setFreshnessSeconds x => Some x | _ => None end.

(** The calls of [Signature] that take no byte source: the two setters of
    the identity references, and [clear()]. *)
Inductive Signature_call (R : Type) : Type :=
  | call_setPublisherPublicKeyDigest
      (publisherPublicKeyDigest : PublisherPublicKeyDigest.t R)
  | call_setKeyLocator (keyLocator : KeyLocator.t R)
  | call_clear.
Arguments call_setPublisherPublicKeyDigest {R}.
Arguments call_setKeyLocator {R}.
Arguments call_clear {R}.

Definition Signature_do {R} (c : Signature_call R) (this : Signature.t R)
  : Signature.t R :=
  match c with
  | call_setPublisherPublicKeyDigest x => Signature.setPublisherPublicKeyDigest x this
  | call_setKeyLocator x => Signature.setKeyLocator x this
  | call_clear => Signature.clear this
  end.

Definition Signature_run {R} (calls : list (Signature_call R))
    (this : Signature.t R) : Signature.t R :=
  foldl (λ s c, Signature_do c s) this calls.

(** What a call makes of the publisher digest and of the key locator:
    [clear()] leaves the empty one. *)
Definition publisherPublicKeyDigest_set {R} (c : Signature_call R)
  : option (PublisherPublicKeyDigest.t R) :=
  match c with
  | call_setPublisherPublicKeyDigest x => Some x
  | call_setKeyLocator _ => None
  | call_clear => Some PublisherPublicKeyDigest.ctor
  end.

Definition keyLocator_set {R} (c : Signature_call R) : option (KeyLocator.t R) :=
  match c with
  | call_setPublisherPublicKeyDigest _ => None
  | call_setKeyLocator x => Some x
  | call_clear => Some KeyLocator.ctor
  end.

(** What a call makes of each of the three byte values: only [clear()]
    touches them. *)
Definition blob_set {R} (c : Signature_call R) : option (Blob.t R) :=
  match c with
  | call_clear => Some Blob.null
  | _ => None
  end.

(** The calls of the setters of [Data] that take an object. *)
Inductive Data_call (R : Type) : Type :=
  | call_setSignature (signature : Signature.t R)
  | call_setName (name : Name.t R)
  | call_setMetainfo (metaInfo : MetaInfo.t R).
Arguments call_setSignature {R}.
Arguments call_setName {R}.
Arguments call_setMetainfo {R}.

Definition Data_do {R} (c : Data_call R) (this : Data.t R) : Data.t R :=
  match c with
  | call_setSignature x => Data.setSignature x this
  | call_setName x => Data.setName x this
  | call_setMetainfo x => Data.setMetainfo x this
  end.

Definition Data_run {R} (calls : list (Data_call R)) (this : Data.t R) : Data.t R :=
  foldl (λ d c, Data_do c d) this calls.

Definition signature_set {R} (c : Data_call R) : option (Signature.t R) :=
  match c with call_setSignature x => Some x | _ => None end.

Definition name_set {R} (c : Data_call R) : option (Name.t R) :=
  match c with call_setName x => Some x | _ => None end.

Definition metaInfo_set {R} (c : Data_call R) : option (MetaInfo.t R) :=
  match c with call_setMetainfo x => Some x | _ => None end.

(** ** Sequences of calls through a wire format

    The process state after a sequence of calls of [wireEncode] and
    [wireDecode], each with its wire format given or left out: a call
    changes the process state only by evaluating its wire-format argument,
    so the list of the arguments is all that matters. *)
Definition Process_after {D St} (initial : WireFormat.t D St)
    (wireFormats : list (option (WireFormat.t D St))) (p : WireFormat.Process D St)
  : WireFormat.Process D St :=
  foldl (λ q wireFormat, (WireFormat.argument initial wireFormat q).2) p wireFormats.

(** * Properties *)

(** ** The plain wire format keeps the contract *)

Lemma field_equal_refl (d : Data.packet) : field_equal d d.
Proof. by repeat split. Qed.

Module PlainFacts.

Import Plain.

Lemma dec_bool_enc (b : bool) (rest : bytes) :
  dec_bool (enc_bool b ++ rest) = Some (b, rest).
Proof. by destruct b. Qed.

Lemma dec_positive_enc (p : positive) (rest : bytes) :
  dec_positive (enc_positive p ++ rest) = Some (p, rest).
Proof.
  induction p as [q IH | q IH |]; simpl; [| | done]; by rewrite IH.
Qed.

Lemma dec_N_enc (n : N) (rest : bytes) : dec_N (enc_N n ++ rest) = Some (n, rest).
Proof. destruct n as [| p]; simpl; [done |]. by rewrite dec_positive_enc. Qed.

Lemma dec_Z_enc (z : Z) (rest : bytes) : dec_Z (enc_Z z ++ rest) = Some (z, rest).
Proof. destruct z as [| p | p]; simpl; [done | |]; by rewrite dec_positive_enc. Qed.

Lemma dec_bytes_enc (v rest : bytes) :
  dec_bytes (enc_bytes v ++ rest) = Some (v, rest).
Proof.
  unfold dec_bytes, enc_bytes.
  rewrite <- app_assoc, dec_N_enc. simpl. rewrite Nat2N.id.
  rewrite decide_True by (rewrite length_app; lia).
  by rewrite take_app_length, drop_app_length.
Qed.

Lemma dec_blob_enc (b : Blob.t bytes) (rest : bytes) :
  dec_blob (enc_blob b ++ rest) = Some (b, rest).
Proof. destruct b as [v |]; simpl; [| done]. by rewrite dec_bytes_enc. Qed.

Lemma dec_double_enc (x : double) (rest : bytes) :
  dec_double (enc_double x ++ rest) = Some (x, rest).
Proof.
  destruct x as [[] | [] | | [] m e]; simpl; try done;
    rewrite <- app_assoc, dec_positive_enc; simpl; by rewrite dec_Z_enc.
Qed.

Lemma dec_type_enc (type : ndn_ContentType) (rest : bytes) :
  dec_type (enc_type type ++ rest) = Some (type, rest).
Proof. destruct type as [| code]; simpl; [done |]. by rewrite dec_Z_enc. Qed.

Lemma dec_component_enc (c : Component.t bytes) (rest : bytes) :
  dec_component (enc_component c ++ rest) = Some (c, rest).
Proof.
  destruct c as [b]. unfold dec_component, enc_component. simpl.
  by rewrite dec_blob_enc.
Qed.

Lemma dec_components_enc (name : Name.t bytes) (rest : bytes) :
  dec_components (length name) (enc_components name ++ rest) = Some (name, rest).
Proof.
  induction name as [| c name IH]; simpl; [done |].
  rewrite <- app_assoc, dec_component_enc. simpl. by rewrite IH.
Qed.

Lemma dec_name_enc (name : Name.t bytes) (rest : bytes) :
  dec_name (enc_name name ++ rest) = Some (name, rest).
Proof.
  unfold dec_name, enc_name. rewrite <- app_assoc, dec_N_enc. simpl.
  rewrite Nat2N.id. apply dec_components_enc.
Qed.

Lemma dec_signature_enc (s : Signature.t bytes) (rest : bytes) :
  dec_signature (enc_signature s ++ rest) = Some (s, rest).
Proof.
  destruct s as [d w sg [pd] [kd]]. unfold dec_signature, enc_signature. simpl.
  repeat (rewrite <- app_assoc; rewrite dec_blob_enc; simpl).
  by rewrite dec_blob_enc.
Qed.

Lemma dec_metaInfo_enc (m : MetaInfo.t bytes) (rest : bytes) :
  dec_metaInfo (enc_metaInfo m ++ rest) = Some (m, rest).
Proof.
  destruct m as [ts ty fs fb]. unfold dec_metaInfo, enc_metaInfo. simpl.
  rewrite <- app_assoc, dec_double_enc. simpl.
  rewrite <- app_assoc, dec_type_enc. simpl.
  rewrite <- app_assoc, dec_Z_enc. simpl.
  by rewrite dec_component_enc.
Qed.

Lemma dec_data_enc (d : Data.packet) (rest : bytes) :
  dec_data (enc_data d ++ rest) = Some (d, rest).
Proof.
  destruct d as [s n m c]. unfold dec_data, enc_data. simpl.
  rewrite <- app_assoc, dec_signature_enc. simpl.
  rewrite <- app_assoc, dec_name_enc. simpl.
  rewrite <- app_assoc, dec_metaInfo_enc. simpl.
  by rewrite dec_blob_enc.
Qed.

Lemma plain_encode_stateless : WireFormat.encode_stateless wireFormat.
Proof. by intros d st1 st2. Qed.

Lemma plain_populates : WireFormat.populates wireFormat.
Proof.
  intros input inputLength d1 st1 d' st' H d2 st2. simpl in *.
  destruct (dec_data (take (N.to_nat inputLength) input)) as [[d [| b rest]] |];
    try discriminate.
  injection H as -> _. by eexists.
Qed.

Lemma enc_data_inj (d1 d2 : Data.packet) : enc_data d1 = enc_data d2 → d1 = d2.
Proof.
  intros Heq. pose proof (dec_data_enc d1 []) as H1.
  rewrite Heq, dec_data_enc in H1. by injection H1.
Qed.

Lemma plain_encodes_all_fields : WireFormat.encodes_all_fields field_equal wireFormat.
Proof.
  intros d1 d2 st1 st2 Heq. simpl in Heq. injection Heq as Heq.
  apply enc_data_inj in Heq as ->. apply field_equal_refl.
Qed.

Lemma plain_reads_within_length : WireFormat.reads_within_length wireFormat.
Proof.
  intros d input inputLength st. simpl. by rewrite take_take, Nat.min_id.
Qed.

Lemma plain_contract : WireFormat.Contract field_equal wireFormat.
Proof.
  split; [apply plain_encode_stateless | apply plain_encodes_all_fields
         | apply plain_populates | apply plain_reads_within_length].
Qed.


(** The scenario of the spec: the packet with name a/b and content 1 2 3
    is encoded, and decoded into a new packet; the new packet is the
    encoded one, and its freshness period is still "none". *)
Example scenario_round_trip :
  let encoding := (Data.wireEncode wireFormat sample 0%nat).1.1 in
  Data.wireDecode (Blob.buf encoding) (to_unsigned_int (Blob.size encoding))
                  wireFormat (Data.ctor (S754_zero false)) 1%nat
  = WireFormat.Decoded sample 2%nat
  ∧ MetaInfo.getFreshnessSeconds (Data.getMetaInfo sample) = -1.
Proof. by vm_compute. Qed.

(** A truncated encoding is rejected, and this decoder leaves the packet
    as it found it. *)
Example scenario_truncated :
  let encoding := (Data.wireEncode wireFormat sample 0%nat).1.1 in
  Data.wireDecode (Blob.buf encoding) (to_unsigned_int (Blob.size encoding - 1))
                  wireFormat (Data.ctor (S754_zero false)) 1%nat
  = WireFormat.DecodeError (Data.ctor (S754_zero false)) 2%nat.
Proof. by vm_compute. Qed.


End PlainFacts.

(** ** Construction and clearing *)

Lemma MetaInfo_ctor_timestamp {R} (indeterminate : double) :
  MetaInfo.getTimestampMilliseconds (MetaInfo.ctor (R := R) indeterminate)
  = indeterminate.
Proof. reflexivity. Qed.

(** C3, at the failing construction.  A [MetaInfo] constructed in storage
    that held the double 0.0 has type [ndn_ContentType_DATA], freshness
    seconds -1 and an empty final block id of size zero, but its timestamp
    is the 0.0 it found there, not the -1 that stands for "none": the
    constructor never assigns [timestampMilliseconds_]. *)
Theorem MetaInfo_ctor_timestamp_not_none :
  let fresh : MetaInfo.t bytes := MetaInfo.ctor (S754_zero false) in
  MetaInfo.getType fresh = ndn_ContentType_DATA
  ∧ MetaInfo.getFreshnessSeconds fresh = -1
  ∧ MetaInfo.getFinalBlockID fresh = Component.ctor
  ∧ Component.size (MetaInfo.getFinalBlockID fresh) = 0%N
  ∧ MetaInfo.getTimestampMilliseconds fresh = S754_zero false
  ∧ MetaInfo.getTimestampMilliseconds fresh ≠ double_none.
Proof. repeat split; discriminate. Qed.

(** C4 as stated fails: it speaks of [clear()] on [Signature] and on
    [MetaInfo], and [MetaInfo] declares no member function of that name. *)
Lemma MetaInfo_declares_no_clear :
  ¬ (declares Signature_members "clear" = true
     ∧ declares MetaInfo_members "clear" = true).
Proof. intros [_ H]. vm_compute in H. discriminate. Qed.

(** C4, amended.  Whatever a [Signature] held, after [clear()] the three
    Blob accessors report the absent Blob and the publisher digest and the
    key locator are the cleared ones, so that clearing any two signatures
    gives the same object; [clear] is a member of [Signature] and not of
    [MetaInfo]. *)
Theorem Signature_clear_absent {R} (this other : Signature.t R) :
  Signature.getDigestAlgorithm (Signature.clear this) = Blob.null
  ∧ Signature.getWitness (Signature.clear this) = Blob.null
  ∧ Signature.getSignature (Signature.clear this) = Blob.null
  ∧ Signature.getPublisherPublicKeyDigest (Signature.clear this)
    = PublisherPublicKeyDigest.ctor
  ∧ Signature.getKeyLocator (Signature.clear this) = KeyLocator.ctor
  ∧ Signature.clear this = Signature.clear other
  ∧ declares Signature_members "clear" = true
  ∧ declares MetaInfo_members "clear" = false.
Proof. by repeat split. Qed.

(** ** Encoding and decoding through a wire format *)

Section Wire.

Context {St : Type}.
Implicit Types (wireFormat : WireFormat.t Data.packet St) (D this : Data.packet).
Implicit Types (st : St) (input : bytes) (inputLength : unsigned_int).




(** C9.  With [dflt] the instance [getDefaultWireFormat()] returns in
    process state [p], and [p'] the state it leaves: the three calls
    without a wire format are the calls with [dflt]; asking again in [p']
    returns [dflt] and leaves [p'], and so does every call made from [p'],
    with or without a wire format, so the default stays [dflt] from then
    on; a call with an explicit wire format uses that one and leaves the
    process state, and with it the default, as it was. *)
Theorem default_wire_format_shared (initial : WireFormat.t Data.packet St) :
  ∀ this input inputLength st (p : WireFormat.Process Data.packet St),
    let dflt := (WireFormat.getDefaultWireFormat initial p).1 in
    let p' := (WireFormat.getDefaultWireFormat initial p).2 in
    (Data.wireEncode_call initial None this p st
       = (Data.wireEncode dflt this st, p')
     ∧ Data.wireDecode_call initial input inputLength None this p st
       = (Data.wireDecode input inputLength dflt this st, p')
     ∧ Data.wireDecode_vector_call initial input None this p st
       = (Data.wireDecode_vector input dflt this st, p'))
    ∧ (WireFormat.getDefaultWireFormat initial p' = (dflt, p')
       ∧ ∀ wireFormat' : option (WireFormat.t Data.packet St),
           (Data.wireEncode_call initial wireFormat' this p' st).2 = p'
           ∧ (Data.wireDecode_call initial input inputLength wireFormat' this p' st).2
             = p'
           ∧ (Data.wireDecode_vector_call initial input wireFormat' this p' st).2 = p')
    ∧ (∀ explicit q,
         Data.wireEncode_call initial (Some explicit) this q st
         = (Data.wireEncode explicit this st, q)
         ∧ Data.wireDecode_call initial input inputLength (Some explicit) this q st
           = (Data.wireDecode input inputLength explicit this st, q)
         ∧ Data.wireDecode_vector_call initial input (Some explicit) this q st
           = (Data.wireDecode_vector input explicit this st, q)).
Proof.
  intros this input inputLength st [[wf |]];
    unfold Data.wireEncode_call, Data.wireDecode_call, Data.wireDecode_vector_call,
           WireFormat.argument, WireFormat.getDefaultWireFormat;
    simpl; repeat split; try done; by destruct wireFormat'.
Qed.

(** C10.  On a vector that is not empty the vector overload of
    [wireDecode] is the pointer overload called with the vector's bytes and
    its size as an [unsigned int]; the overload always reads element 0, and
    on the empty vector, which has none, it has no defined result. *)
Theorem wireDecode_vector_nonempty wireFormat this st input :
  input ≠ [] →
  Data.wireDecode_vector input wireFormat this st
  = Some (Data.wireDecode input (to_unsigned_int (N.of_nat (length input)))
                          wireFormat this st)
  ∧ Data.wireDecode_vector [] wireFormat this st = None.
Proof.
  intros H. split; [| reflexivity].
  unfold Data.wireDecode_vector. by destruct input.
Qed.

End Wire.







Lemma wireDecode_vector_nonempty_witness :
  Data.wireDecode_vector [Byte.x00] Plain.wireFormat Plain.sample 0%nat
  = Some (Data.wireDecode [Byte.x00] 1%N Plain.wireFormat Plain.sample 0%nat)
  ∧ Data.wireDecode_vector [] Plain.wireFormat Plain.sample 0%nat = None.
Proof.
  apply (wireDecode_vector_nonempty Plain.wireFormat Plain.sample 0%nat [Byte.x00]).
  discriminate.
Defined.

(** ** Heap facts *)

Section Heap.

Implicit Types (h : Memory.Heap) (a : Memory.addr) (v w : bytes).

Lemma load_lookup h a v : Memory.load h a = Some v ↔ h !! a = Some (Some v).
Proof.
  unfold Memory.load. destruct (h !! a) as [[u |] |]; simpl; split; congruence.
Qed.

Lemma load_lt h a v : Memory.load h a = Some v → (a < length h)%nat.
Proof. rewrite load_lookup. apply lookup_lt_Some. Qed.

Lemma load_prefix h h' a v :
  h `prefix_of` h' → Memory.load h a = Some v → Memory.load h' a = Some v.
Proof. rewrite !load_lookup. intros Hpre Hl. by eapply prefix_lookup_Some. Qed.

Lemma load_alloc h v : Memory.load (h ++ [Some v]) (length h) = Some v.
Proof. apply load_lookup. by apply list_lookup_middle. Qed.

Lemma bind_run {A B} (m : Memory.M A) (k : A → Memory.M B) h (x : A) h' :
  m h = Some (x, h') → (m ≫= k) h = k x h'.
Proof. intros H. unfold mbind, Memory.M_bind. by rewrite H. Qed.

Lemma read_range_heap (p : Memory.pointer) (len : unsigned_int) h v h' :
  Memory.read_range p len h = Some (v, h') → h' = h.
Proof.
  unfold Memory.read_range. destruct p as [| a offset].
  - case_decide; intros; by simplify_eq.
  - destruct (Memory.load h a); [| done]. case_decide; intros; by simplify_eq.
Qed.

Lemma read_range_prefix (p : Memory.pointer) (len : unsigned_int) h0 h v h0' :
  h0 `prefix_of` h →
  Memory.read_range p len h0 = Some (v, h0') →
  Memory.read_range p len h = Some (v, h).
Proof.
  intros Hpre. unfold Memory.read_range. destruct p as [| a offset].
  - case_decide; intros; by simplify_eq.
  - destruct (Memory.load h0 a) as [u |] eqn:Hl; [| done].
    rewrite (load_prefix _ _ _ _ Hpre Hl). case_decide; intros; by simplify_eq.
Qed.

Lemma read_range_source (p : Memory.pointer) (len : unsigned_int) h v h' a :
  Memory.read_range p len h = Some (v, h') → buffer_of p = Some a →
  (a < length h)%nat.
Proof.
  unfold Memory.read_range. destruct p as [| b offset]; simpl; [done |].
  intros H [= <-]. destruct (Memory.load h b) as [u |] eqn:Hl; [| done].
  by eapply load_lt.
Qed.

Lemma keeps_new_refl h h' : Memory.keeps_new h h' h'.
Proof. by intros a _. Qed.

Lemma keeps_new_store h h' a w :
  (a < length h)%nat → Memory.keeps_new h h' (Memory.store a w h').
Proof.
  intros Ha b [Hb _]. unfold Memory.store.
  apply list_lookup_insert_ne. lia.
Qed.

Lemma keeps_new_free h h' a :
  (a < length h)%nat → Memory.keeps_new h h' (Memory.free a h').
Proof.
  intros Ha b [Hb _]. unfold Memory.free.
  apply list_lookup_insert_ne. lia.
Qed.

Lemma contents_new h v h'' :
  Memory.keeps_new h (h ++ [Some v]) h'' →
  Blob.contents h'' (Some (length h)) = Some v.
Proof.
  intros Hk. simpl. apply load_lookup. rewrite Hk.
  - by apply list_lookup_middle.
  - rewrite length_app. simpl. lia.
Qed.

Lemma of_vector_run (value : Memory.addr) h v :
  Memory.load h value = Some v →
  Blob.of_vector value h = Some (Some (length h), h ++ [Some v]).
Proof.
  intros Hl. unfold Blob.of_vector.
  erewrite bind_run; [| unfold Memory.read_vector; by rewrite Hl].
  reflexivity.
Qed.

Lemma of_pointer_run (value : Memory.pointer) (valueLength : unsigned_int) h v h0 :
  Memory.read_range value valueLength h = Some (v, h0) →
  Blob.of_pointer value valueLength h = Some (Some (length h), h ++ [Some v]).
Proof.
  intros Hr. pose proof (read_range_heap _ _ _ _ _ Hr) as ->.
  unfold Blob.of_pointer. erewrite bind_run; [| exact Hr]. reflexivity.
Qed.

Lemma stores_copy_intro {A} (field : A → Blob.t Memory.addr)
    (source : option Memory.addr) v (m : Memory.M A) h (x : A) :
  m h = Some (x, h ++ [Some v]) →
  field x = Some (length h) →
  (∀ a, source = Some a → (a < length h)%nat) →
  stores_copy field source v m h.
Proof.
  intros Hrun Hfield Hsrc. exists x, (h ++ [Some v]). rewrite Hfield.
  split; [done |]. split; [apply load_alloc |].
  split; [| split].
  - intros a w Ha. apply contents_new, keeps_new_store. auto.
  - intros a Ha. apply contents_new, keeps_new_free. auto.
  - intros h''. apply contents_new.
Qed.

End Heap.

(** ** Setters that share and setters that copy *)

(** C6.  After [setContent] with a shared pointer to a live vector,
    [getContent()] is that very pointer: it gives access to the bytes of the
    caller's vector, and once the caller has overwritten the vector, to the
    new bytes.  This holds for both shared-pointer overloads. *)
Theorem setContent_shared_ptr_aliases (this : Data.t Memory.addr)
    (content : Memory.addr) (h : Memory.Heap) (v v' : bytes) :
  Memory.load h content = Some v →
  (let this' := Data.setContent_shared_ptr (Some content) this in
   Data.getContent this' = Some content
   ∧ Blob.contents h (Data.getContent this') = Some v
   ∧ Blob.contents (Memory.store content v' h) (Data.getContent this') = Some v')
  ∧ (let this' := Data.setContent_shared_ptr_const (Some content) this in
     Data.getContent this' = Some content
     ∧ Blob.contents h (Data.getContent this') = Some v
     ∧ Blob.contents (Memory.store content v' h) (Data.getContent this') = Some v').
Proof.
  intros Hl.
  assert (Memory.load (Memory.store content v' h) content = Some v') as Hs.
  { apply load_lookup. unfold Memory.store.
    apply list_lookup_insert_eq. by eapply load_lt. }
  by repeat split.
Qed.

Lemma setContent_shared_ptr_aliases_witness :
  (let this' := Data.setContent_shared_ptr (Some 0%nat) (Data.ctor (S754_zero false)) in
   Data.getContent this' = Some 0%nat
   ∧ Blob.contents [Some [Byte.x01]] (Data.getContent this') = Some [Byte.x01]
   ∧ Blob.contents (Memory.store 0%nat [Byte.x02] [Some [Byte.x01]])
                   (Data.getContent this') = Some [Byte.x02])
  ∧ (let this' :=
       Data.setContent_shared_ptr_const (Some 0%nat) (Data.ctor (S754_zero false)) in
     Data.getContent this' = Some 0%nat
     ∧ Blob.contents [Some [Byte.x01]] (Data.getContent this') = Some [Byte.x01]
     ∧ Blob.contents (Memory.store 0%nat [Byte.x02] [Some [Byte.x01]])
                     (Data.getContent this') = Some [Byte.x02]).
Proof.
  apply (setContent_shared_ptr_aliases (Data.ctor (S754_zero false)) 0%nat
           [Some [Byte.x01]] [Byte.x01] [Byte.x02]).
  reflexivity.
Defined.

(** C7.  Each of the eight setters stores an owned copy.  The four that
    take a vector, given any live vector [source] holding bytes [v], and
    the four that take a pointer and a length, given any pointer [p] and
    length [len] that lead to bytes [w] (anywhere in a live buffer, or the
    null pointer with length 0), return, and the field then gives access to
    those bytes: after the call, after the source buffer has been
    overwritten or deallocated, and whatever else happens to the buffers
    that existed before the call.  No member function of [Signature] or
    [MetaInfo] takes a shared pointer; in [Data] the two shared-pointer
    overloads of [setContent] do, and nothing else. *)
Theorem setters_store_copies (h : Memory.Heap)
    (s : Signature.t Memory.addr) (m : MetaInfo.t Memory.addr) :
  (∀ (source : Memory.addr) (v : bytes),
      Memory.load h source = Some v →
      stores_copy Signature.getDigestAlgorithm (Some source) v
        (Signature.setDigestAlgorithm_vector source s) h
      ∧ stores_copy Signature.getWitness (Some source) v
          (Signature.setWitness_vector source s) h
      ∧ stores_copy Signature.getSignature (Some source) v
          (Signature.setSignature_vector source s) h
      ∧ stores_copy (λ m', Component.value_ (MetaInfo.getFinalBlockID m'))
          (Some source) v (MetaInfo.setFinalBlockID_vector source m) h)
  ∧ (∀ (p : Memory.pointer) (len : unsigned_int) (w : bytes),
       Memory.read_range p len h = Some (w, h) →
       stores_copy Signature.getDigestAlgorithm (buffer_of p) w
         (Signature.setDigestAlgorithm_pointer p len s) h
       ∧ stores_copy Signature.getWitness (buffer_of p) w
           (Signature.setWitness_pointer p len s) h
       ∧ stores_copy Signature.getSignature (buffer_of p) w
           (Signature.setSignature_pointer p len s) h
       ∧ stores_copy (λ m', Component.value_ (MetaInfo.getFinalBlockID m'))
           (buffer_of p) w (MetaInfo.setFinalBlockID_pointer p len m) h)
  ∧ forallb (λ f, negb (takes_shared_ptr f)) (Signature_members ++ MetaInfo_members)
    = true
  ∧ List.filter takes_shared_ptr Data_members
    = [("setContent"%string, [by_shared_ptr]); ("setContent"%string, [by_shared_ptr])].
Proof.
  split; [| split; [| by split]].
  - intros source v Hl.
    pose proof (of_vector_run _ _ _ Hl) as Hv.
    assert (∀ a, Some source = Some a → (a < length h)%nat) as Hsv.
    { intros a [= <-]. by eapply load_lt. }
    repeat split;
      (eapply stores_copy_intro;
       [ unfold Signature.setDigestAlgorithm_vector, Signature.setWitness_vector,
                Signature.setSignature_vector, MetaInfo.setFinalBlockID_vector,
                Component.of_vector;
         repeat (erewrite bind_run; [reflexivity |]); exact Hv
       | reflexivity
       | exact Hsv ]).
  - intros p len w Hr.
    pose proof (of_pointer_run _ _ _ _ _ Hr) as Hp.
    assert (∀ a, buffer_of p = Some a → (a < length h)%nat) as Hsp.
    { intros a. by eapply read_range_source. }
    repeat split;
      (eapply stores_copy_intro;
       [ unfold Signature.setDigestAlgorithm_pointer, Signature.setWitness_pointer,
                Signature.setSignature_pointer, MetaInfo.setFinalBlockID_pointer,
                Component.of_pointer;
         repeat (erewrite bind_run; [reflexivity |]); exact Hp
       | reflexivity
       | exact Hsp ]).
Qed.

Lemma setters_store_copies_witness :
  let h : Memory.Heap := [Some [Byte.x01; Byte.x02; Byte.x03]] in
  let s : Signature.t Memory.addr := Signature.ctor in
  let m : MetaInfo.t Memory.addr := MetaInfo.ctor (S754_zero false) in
  let v : bytes := [Byte.x01; Byte.x02; Byte.x03] in
  let p := Memory.at_ 0%nat 1%nat in
  let w : bytes := [Byte.x02; Byte.x03] in
  (stores_copy Signature.getDigestAlgorithm (Some 0%nat) v
     (Signature.setDigestAlgorithm_vector 0%nat s) h
   ∧ stores_copy Signature.getWitness (Some 0%nat) v
       (Signature.setWitness_vector 0%nat s) h
   ∧ stores_copy Signature.getSignature (Some 0%nat) v
       (Signature.setSignature_vector 0%nat s) h
   ∧ stores_copy (λ m', Component.value_ (MetaInfo.getFinalBlockID m'))
       (Some 0%nat) v (MetaInfo.setFinalBlockID_vector 0%nat m) h)
  ∧ (stores_copy Signature.getDigestAlgorithm (buffer_of p) w
       (Signature.setDigestAlgorithm_pointer p 2%N s) h
     ∧ stores_copy Signature.getWitness (buffer_of p) w
         (Signature.setWitness_pointer p 2%N s) h
     ∧ stores_copy Signature.getSignature (buffer_of p) w
         (Signature.setSignature_pointer p 2%N s) h
     ∧ stores_copy (λ m', Component.value_ (MetaInfo.getFinalBlockID m'))
         (buffer_of p) w (MetaInfo.setFinalBlockID_pointer p 2%N m) h)
  ∧ stores_copy Signature.getWitness (buffer_of Memory.null) []
      (Signature.setWitness_pointer Memory.null 0%N s) h.
Proof.
  destruct (setters_store_copies [Some [Byte.x01; Byte.x02; Byte.x03]]
              Signature.ctor (MetaInfo.ctor (S754_zero false)))
    as (Hvector & Hpointer & _).
  split; [apply (Hvector 0%nat); reflexivity |].
  split; [apply (Hpointer (Memory.at_ 0%nat 1%nat) 2%N); reflexivity |].
  destruct (Hpointer Memory.null 0%N [] eq_refl) as (_ & Hnull & _).
  exact Hnull.
Defined.

(** The two ways of setting the content, side by side: the caller's
    vector holds the byte 1, the content is set from it, and the caller
    then writes the byte 2 into the vector.  The copy still reads 1, the
    shared pointer reads 2. *)
Example content_copied_or_shared :
  let h : Memory.Heap := [Some [Byte.x01]] in
  let this : Data.t Memory.addr := Data.ctor (S754_zero false) in
  (∃ this' h',
      Data.setContent_vector 0%nat this h = Some (this', h')
      ∧ Blob.contents (Memory.store 0%nat [Byte.x02] h') (Data.getContent this')
        = Some [Byte.x01])
  ∧ Blob.contents (Memory.store 0%nat [Byte.x02] h)
      (Data.getContent (Data.setContent_shared_ptr (Some 0%nat) this))
    = Some [Byte.x02].
Proof. split; [by eexists _, _ | done]. Qed.

(** ** Copying out of the C structs *)

Section Copied.

Implicit Types (h : Memory.Heap) (a : Memory.addr).

Lemma contents_local : local_view Blob.contents Blob.addrs.
Proof.
  intros h1 h2 [a |] H; [| done]. simpl in *.
  rewrite Forall_singleton in H. unfold Memory.load. by rewrite H.
Qed.

Lemma Component_view_local : local_view Component.view Component.addrs.
Proof.
  intros h1 h2 [b] H. unfold Component.view. simpl. f_equal.
  by apply contents_local.
Qed.

Lemma Name_view_local : local_view Name.view Name.addrs.
Proof.
  intros h1 h2 name. induction name as [| c name IH]; [done |].
  unfold Name.addrs, Name.view in *. simpl. rewrite Forall_app.
  intros [Hc Hn]. f_equal; [by apply Component_view_local | by apply IH].
Qed.

Lemma PublisherPublicKeyDigest_view_local :
  local_view PublisherPublicKeyDigest.view PublisherPublicKeyDigest.addrs.
Proof.
  intros h1 h2 [b] H. unfold PublisherPublicKeyDigest.view. simpl. f_equal.
  by apply contents_local.
Qed.

Lemma KeyLocator_view_local : local_view KeyLocator.view KeyLocator.addrs.
Proof.
  intros h1 h2 [b] H. unfold KeyLocator.view. simpl. f_equal.
  by apply contents_local.
Qed.

Lemma Signature_view_local : local_view Signature.view Signature.addrs.
Proof.
  intros h1 h2 [d w s pd kl]. unfold Signature.view, Signature.addrs. simpl.
  rewrite !Forall_app. intros (H1 & H2 & H3 & H4 & H5).
  f_equal; first [by apply contents_local
                 | by apply PublisherPublicKeyDigest_view_local
                 | by apply KeyLocator_view_local].
Qed.

Lemma MetaInfo_view_local : local_view MetaInfo.view MetaInfo.addrs.
Proof.
  intros h1 h2 [ts ty fs fb] H. unfold MetaInfo.view. simpl. f_equal.
  by apply Component_view_local.
Qed.

Lemma Data_view_local : local_view Data.view Data.addrs.
Proof.
  intros h1 h2 [s n m c]. unfold Data.view, Data.addrs. simpl.
  rewrite !Forall_app. intros (H1 & H2 & H3 & H4).
  f_equal; first [by apply Signature_view_local | by apply Name_view_local
                 | by apply MetaInfo_view_local | by apply contents_local].
Qed.

(** What a step of a copy established stays true when the copy goes on:
    the object made between [hp] and [hi] is still new, and still has its
    field values, in every later heap [hf]. *)
Lemma settle {A V} (view : Memory.Heap → A → V) (addrs : A → list Memory.addr)
    h hp hi hf (x : A) (v : V) :
  local_view view addrs →
  h `prefix_of` hp → hp `prefix_of` hi → hi `prefix_of` hf →
  Forall (λ a, (length hp ≤ a < length hi)%nat) (addrs x) →
  view hi x = v →
  Forall (λ a, (length h ≤ a < length hf)%nat) (addrs x) ∧ view hf x = v.
Proof.
  intros Hloc P1 P2 P3 Hfresh <-.
  pose proof (prefix_length _ _ P1). pose proof (prefix_length _ _ P2).
  pose proof (prefix_length _ _ P3).
  split.
  - eapply Forall_impl; [exact Hfresh |]. simpl. lia.
  - apply Hloc. eapply Forall_impl; [exact Hfresh |]. simpl.
    intros a Ha. destruct P3 as [k ->]. apply lookup_app_l. lia.
Qed.

(** The same for the heaps that later code can reach. *)
Lemma settle_keeps_new {A V} (view : Memory.Heap → A → V)
    (addrs : A → list Memory.addr) h h' h'' (x : A) :
  local_view view addrs →
  Forall (λ a, (length h ≤ a < length h')%nat) (addrs x) →
  Memory.keeps_new h h' h'' →
  view h'' x = view h' x.
Proof.
  intros Hloc Hfresh Hk. apply Hloc.
  eapply Forall_impl; [exact Hfresh |]. simpl. intros a Ha. by apply Hk.
Qed.

Lemma of_pointer_copied h0 h (value : Memory.pointer) (valueLength : unsigned_int)
    (v : Blob.t bytes) :
  h0 `prefix_of` h →
  Blob.read h0 value valueLength = Some v →
  copied Blob.contents Blob.addrs (Blob.of_pointer value valueLength) h v.
Proof.
  intros Hpre Hread. unfold Blob.read in Hread.
  destruct (Memory.read_range value valueLength h0) as [[u h0'] |] eqn:Hr; [| done].
  simpl in Hread. injection Hread as <-.
  pose proof (read_range_prefix _ _ _ _ _ _ Hpre Hr) as Hr'.
  exists (Some (length h)), (h ++ [Some u]).
  split; [by eapply of_pointer_run |].
  split; [by apply prefix_app_r |].
  split; [| apply load_alloc].
  apply Forall_singleton. rewrite length_app. simpl. lia.
Qed.

Lemma Component_set_copied h0 h (c : ndn_NameComponent) (v : Component.t bytes) :
  h0 `prefix_of` h →
  Component.read h0 c = Some v →
  copied Component.view Component.addrs (Component.set c) h v.
Proof.
  intros Hpre Hread. unfold Component.read in Hread.
  destruct (Blob.read h0 (ndn_value c) (ndn_valueLength c)) as [b |] eqn:Hb; [| done].
  simpl in Hread. injection Hread as <-.
  destruct (of_pointer_copied _ _ _ _ _ Hpre Hb) as (x & h' & Hrun & P & F & V).
  exists (Component.mk x), h'. repeat split; try done.
  - unfold Component.set, Component.of_pointer. by erewrite bind_run.
  - unfold Component.view. simpl. by rewrite V.
Qed.

Lemma set_components_copied h0 (components : list ndn_NameComponent) :
  ∀ h (v : Name.t bytes),
    h0 `prefix_of` h →
    mapM (Component.read h0) components = Some v →
    copied Name.view Name.addrs (Name.set_components components) h v.
Proof.
  induction components as [| c rest IH]; intros h v Hpre Hread; simpl in Hread.
  - injection Hread as <-. exists [], h. by repeat split.
  - destruct (Component.read h0 c) as [vc |] eqn:Hc; [| done]. simpl in Hread.
    destruct (mapM (Component.read h0) rest) as [vr |] eqn:Hrest; [| done].
    simpl in Hread. injection Hread as <-.
    destruct (Component_set_copied _ _ _ _ Hpre Hc) as (x & h1 & R1 & P1 & F1 & V1).
    destruct (IH h1 vr (transitivity Hpre P1) eq_refl)
      as (y & h2 & R2 & P2 & F2 & V2).
    destruct (settle _ _ h h h1 h2 x vc Component_view_local) as [F1' V1']; try done.
    destruct (settle _ _ h h1 h2 h2 y vr Name_view_local) as [F2' V2']; try done.
    exists (x :: y), h2. repeat split.
    + simpl. erewrite bind_run; [| exact R1]. by erewrite bind_run.
    + by etrans.
    + unfold Name.addrs. simpl. by apply Forall_app.
    + change (Component.view h2 x :: Name.view h2 y = vc :: vr).
      by rewrite V1', V2'.
Qed.

End Copied.

Section CopiedObjects.

Implicit Types (h : Memory.Heap) (a : Memory.addr).

Lemma PublisherPublicKeyDigest_set_copied h0 h (digestStruct : ndn_PublisherPublicKeyDigest)
    (this : PublisherPublicKeyDigest.t Memory.addr)
    (v : PublisherPublicKeyDigest.t bytes) :
  h0 `prefix_of` h →
  PublisherPublicKeyDigest.read h0 digestStruct = Some v →
  copied PublisherPublicKeyDigest.view PublisherPublicKeyDigest.addrs
         (PublisherPublicKeyDigest.set digestStruct this) h v.
Proof.
  intros Hpre Hread. unfold PublisherPublicKeyDigest.read in Hread.
  destruct (Blob.read h0 _ _) as [b |] eqn:Hb; [| done].
  simpl in Hread. injection Hread as <-.
  destruct (of_pointer_copied _ _ _ _ _ Hpre Hb) as (x & h' & Hrun & P & F & V).
  exists (PublisherPublicKeyDigest.mk x), h'. repeat split; try done.
  - unfold PublisherPublicKeyDigest.set. by erewrite bind_run.
  - unfold PublisherPublicKeyDigest.view. simpl. by rewrite V.
Qed.

Lemma KeyLocator_set_copied h0 h (keyLocatorStruct : ndn_KeyLocator)
    (this : KeyLocator.t Memory.addr) (v : KeyLocator.t bytes) :
  h0 `prefix_of` h →
  KeyLocator.read h0 keyLocatorStruct = Some v →
  copied KeyLocator.view KeyLocator.addrs (KeyLocator.set keyLocatorStruct this) h v.
Proof.
  intros Hpre Hread. unfold KeyLocator.read in Hread.
  destruct (Blob.read h0 _ _) as [b |] eqn:Hb; [| done].
  simpl in Hread. injection Hread as <-.
  destruct (of_pointer_copied _ _ _ _ _ Hpre Hb) as (x & h' & Hrun & P & F & V).
  exists (KeyLocator.mk x), h'. repeat split; try done.
  - unfold KeyLocator.set. by erewrite bind_run.
  - unfold KeyLocator.view. simpl. by rewrite V.
Qed.

Lemma Signature_set_copied h0 h (signatureStruct : ndn_Signature)
    (this : Signature.t Memory.addr) (v : Signature.t bytes) :
  h0 `prefix_of` h →
  Signature.read h0 signatureStruct = Some v →
  copied Signature.view Signature.addrs (Signature.set signatureStruct this) h v.
Proof.
  intros Hpre Hread. unfold Signature.read in Hread.
  destruct (Blob.read h0 (ndn_digestAlgorithm _) _) as [v1 |] eqn:E1; [| done].
  simpl in Hread.
  destruct (Blob.read h0 (ndn_witness _) _) as [v2 |] eqn:E2; [| done].
  simpl in Hread.
  destruct (Blob.read h0 (ndn_signatureBits _) _) as [v3 |] eqn:E3; [| done].
  simpl in Hread.
  destruct (PublisherPublicKeyDigest.read h0 _) as [v4 |] eqn:E4; [| done].
  simpl in Hread.
  destruct (KeyLocator.read h0 _) as [v5 |] eqn:E5; [| done].
  simpl in Hread. injection Hread as <-.
  destruct (of_pointer_copied _ _ _ _ _ Hpre E1) as (x1 & h1 & R1 & P1 & F1 & V1).
  assert (h `prefix_of` h1) as Q1 by done.
  destruct (of_pointer_copied _ h1 _ _ _ (transitivity Hpre Q1) E2)
    as (x2 & h2 & R2 & P2 & F2 & V2).
  assert (h `prefix_of` h2) as Q2 by by etrans.
  destruct (of_pointer_copied _ h2 _ _ _ (transitivity Hpre Q2) E3)
    as (x3 & h3 & R3 & P3 & F3 & V3).
  assert (h `prefix_of` h3) as Q3 by by etrans.
  destruct (PublisherPublicKeyDigest_set_copied _ h3 _
              (PublisherPublicKeyDigest.clear (Signature.publisherPublicKeyDigest_ this))
              _ (transitivity Hpre Q3) E4)
    as (x4 & h4 & R4 & P4 & F4 & V4).
  assert (h `prefix_of` h4) as Q4 by by etrans.
  destruct (KeyLocator_set_copied _ h4 _
              (KeyLocator.clear (Signature.keyLocator_ this))
              _ (transitivity Hpre Q4) E5)
    as (x5 & h5 & R5 & P5 & F5 & V5).
  destruct (settle _ _ h h h1 h5 x1 v1 contents_local) as [F1' V1'];
    try done; [by repeat (etrans; [eassumption |]) |].
  destruct (settle _ _ h h1 h2 h5 x2 v2 contents_local) as [F2' V2'];
    try done; [by repeat (etrans; [eassumption |]) |].
  destruct (settle _ _ h h2 h3 h5 x3 v3 contents_local) as [F3' V3'];
    try done; [by repeat (etrans; [eassumption |]) |].
  destruct (settle _ _ h h3 h4 h5 x4 v4 PublisherPublicKeyDigest_view_local)
    as [F4' V4']; try done.
  destruct (settle _ _ h h4 h5 h5 x5 v5 KeyLocator_view_local)
    as [F5' V5']; try done.
  exists (Signature.mk x1 x2 x3 x4 x5), h5. repeat split.
  - unfold Signature.set. simpl.
    erewrite bind_run; [| exact R1]. erewrite bind_run; [| exact R2].
    erewrite bind_run; [| exact R3]. erewrite bind_run; [| exact R4].
    by erewrite bind_run.
  - by etrans.
  - unfold Signature.addrs. simpl. by rewrite !Forall_app.
  - unfold Signature.view. simpl. by rewrite V1', V2', V3', V4', V5'.
Qed.

Lemma MetaInfo_set_copied h0 h (metaInfoStruct : ndn_MetaInfo)
    (this : MetaInfo.t Memory.addr) (v : MetaInfo.t bytes) :
  h0 `prefix_of` h →
  MetaInfo.read h0 metaInfoStruct = Some v →
  copied MetaInfo.view MetaInfo.addrs (MetaInfo.set metaInfoStruct this) h v.
Proof.
  intros Hpre Hread. unfold MetaInfo.read in Hread.
  destruct (Component.read h0 _) as [c |] eqn:Hc; [| done].
  simpl in Hread. injection Hread as <-.
  destruct (Component_set_copied _ _ _ _ Hpre Hc) as (x & h' & Hrun & P & F & V).
  exists (MetaInfo.mk (ndn_timestampMilliseconds metaInfoStruct)
            (ndn_type metaInfoStruct) (ndn_freshnessSeconds metaInfoStruct) x), h'.
  repeat split; try done.
  - unfold MetaInfo.set. by erewrite bind_run.
  - unfold MetaInfo.view. simpl. by rewrite V.
Qed.

Lemma Data_set_copied h (dataStruct : ndn_Data) (this : Data.t Memory.addr)
    (v : Data.packet) :
  Data.read h dataStruct = Some v →
  copied Data.view Data.addrs (Data.set dataStruct this) h v.
Proof.
  intros Hread. unfold Data.read in Hread.
  destruct (Signature.read h _) as [v1 |] eqn:E1; [| done]. simpl in Hread.
  destruct (Name.read h _) as [v2 |] eqn:E2; [| done]. simpl in Hread.
  destruct (MetaInfo.read h _) as [v3 |] eqn:E3; [| done]. simpl in Hread.
  destruct (Blob.read h (ndn_content _) _) as [v4 |] eqn:E4; [| done].
  simpl in Hread. injection Hread as <-.
  destruct (Signature_set_copied h h _ (Data.signature_ this) _ (reflexivity h) E1)
    as (x1 & h1 & R1 & P1 & F1 & V1).
  destruct (set_components_copied h _ h1 _ P1 E2) as (x2 & h2 & R2 & P2 & F2 & V2).
  assert (h `prefix_of` h2) as Q2 by by etrans.
  destruct (MetaInfo_set_copied h h2 _ (Data.metaInfo_ this) _ Q2 E3)
    as (x3 & h3 & R3 & P3 & F3 & V3).
  assert (h `prefix_of` h3) as Q3 by by etrans.
  destruct (of_pointer_copied h h3 _ _ _ Q3 E4) as (x4 & h4 & R4 & P4 & F4 & V4).
  destruct (settle _ _ h h h1 h4 x1 v1 Signature_view_local) as [F1' V1'];
    try done; [by repeat (etrans; [eassumption |]) |].
  destruct (settle _ _ h h1 h2 h4 x2 v2 Name_view_local) as [F2' V2'];
    try done; [by repeat (etrans; [eassumption |]) |].
  destruct (settle _ _ h h2 h3 h4 x3 v3 MetaInfo_view_local) as [F3' V3']; try done.
  destruct (settle _ _ h h3 h4 h4 x4 v4 contents_local) as [F4' V4']; try done.
  exists (Data.mk x1 x2 x3 x4), h4. repeat split.
  - unfold Data.set.
    erewrite bind_run; [| exact R1].
    erewrite bind_run; [| unfold Name.set; exact R2].
    erewrite bind_run; [| exact R3]. by erewrite bind_run.
  - by etrans.
  - unfold Data.addrs. simpl. by rewrite !Forall_app.
  - unfold Data.view. simpl. by rewrite V1', V2', V3', V4'.
Qed.

End CopiedObjects.

(** C8.  When every pointer of the struct leads to the bytes its length
    announces, [Data::set] returns; the packet it leaves does not depend on
    the packet it was called on, so that nothing of the old packet is left;
    its field values are those of the struct at the time of the call; every
    address it refers to was allocated by the call, none is a buffer of the
    struct; and its field values are the same in every heap later code can
    reach without touching the buffers allocated by the call, whatever
    becomes of the buffers of the struct. *)
Theorem Data_set_owns_copies (dataStruct : ndn_Data) (this : Data.t Memory.addr)
    (h : Memory.Heap) (values : Data.packet) :
  Data.read h dataStruct = Some values →
  ∃ (this' : Data.t Memory.addr) (h' : Memory.Heap),
    Data.set dataStruct this h = Some (this', h')
    ∧ (∀ other : Data.t Memory.addr, Data.set dataStruct other h = Some (this', h'))
    ∧ Data.view h' this' = values
    ∧ Forall (λ a : Memory.addr, (length h ≤ a < length h')%nat) (Data.addrs this')
    ∧ (∀ h'' : Memory.Heap,
         Memory.keeps_new h h' h'' → Data.view h'' this' = values).
Proof.
  intros Hread.
  destruct (Data_set_copied h dataStruct this values Hread)
    as (this' & h' & Hrun & Hpre & Hfresh & Hview).
  exists this', h'. repeat split; try done.
  intros h'' Hk. rewrite <- Hview.
  by eapply settle_keeps_new; [apply Data_view_local | |].
Qed.

Lemma Data_set_owns_copies_witness :
  ∃ (this' : Data.t Memory.addr) (h' : Memory.Heap),
    Data.set Sample.dataStruct (Data.ctor (S754_zero false)) Sample.heap
    = Some (this', h')
    ∧ (∀ other : Data.t Memory.addr,
         Data.set Sample.dataStruct other Sample.heap = Some (this', h'))
    ∧ Data.view h' this' = Sample.values
    ∧ Forall (λ a : Memory.addr, (length Sample.heap ≤ a < length h')%nat)
             (Data.addrs this')
    ∧ (∀ h'' : Memory.Heap,
         Memory.keeps_new Sample.heap h' h'' → Data.view h'' this' = Sample.values).
Proof.
  apply (Data_set_owns_copies Sample.dataStruct (Data.ctor (S754_zero false))
           Sample.heap Sample.values).
  reflexivity.
Defined.

(** * Further properties of the setters, the constructors and the calls
    through a wire format *)

(** ** Sequences of setter calls *)

Lemma last_set_snoc {A C} (arg : C → option A) (original : A) (calls : list C) (c : C) :
  last_set arg original (calls ++ [c])
  = default (last_set arg original calls) (arg c).
Proof.
  unfold last_set. rewrite omap_app. simpl.
  destruct (arg c) as [x |]; simpl.
  - by rewrite last_snoc.
  - by rewrite app_nil_r.
Qed.

(** X4.  After any sequence of calls of the three scalar setters of a
    [MetaInfo], each of the three accessors returns the argument of the
    last call of its own setter, or what it returned before the sequence
    when its setter was not called; the final block id is what it was. *)
Theorem MetaInfo_setters_last_write {R} (calls : list MetaInfo_call)
    (this : MetaInfo.t R) :
  MetaInfo.getTimestampMilliseconds (MetaInfo_run calls this)
  = last_set timestampMilliseconds_set (MetaInfo.getTimestampMilliseconds this) calls
  ∧ MetaInfo.getType (MetaInfo_run calls this)
    = last_set type_set (MetaInfo.getType this) calls
  ∧ MetaInfo.getFreshnessSeconds (MetaInfo_run calls this)
    = last_set freshnessSeconds_set (MetaInfo.getFreshnessSeconds this) calls
  ∧ MetaInfo.getFinalBlockID (MetaInfo_run calls this) = MetaInfo.getFinalBlockID this.
Proof.
  induction calls as [| c calls IH] using rev_ind; [done |].
  destruct IH as (IH1 & IH2 & IH3 & IH4).
  unfold MetaInfo_run in *. rewrite foldl_app, !last_set_snoc. simpl.
  destruct c; simpl; by rewrite <- ?IH1, <- ?IH2, <- ?IH3, <- ?IH4.
Qed.

(** X5.  After any sequence of calls of [setPublisherPublicKeyDigest],
    [setKeyLocator] and [clear] on a [Signature]: the publisher digest is
    the argument of its last setter call if no [clear()] came after it, the
    empty one if a [clear()] came last, and the original one if neither was
    called; likewise the key locator; each of the three byte values is
    absent if [clear()] was called, and the original one otherwise. *)
Theorem Signature_setters_and_clear {R} (calls : list (Signature_call R))
    (this : Signature.t R) :
  Signature.getPublisherPublicKeyDigest (Signature_run calls this)
  = last_set publisherPublicKeyDigest_set (Signature.getPublisherPublicKeyDigest this)
             calls
  ∧ Signature.getKeyLocator (Signature_run calls this)
    = last_set keyLocator_set (Signature.getKeyLocator this) calls
  ∧ Signature.getDigestAlgorithm (Signature_run calls this)
    = last_set blob_set (Signature.getDigestAlgorithm this) calls
  ∧ Signature.getWitness (Signature_run calls this)
    = last_set blob_set (Signature.getWitness this) calls
  ∧ Signature.getSignature (Signature_run calls this)
    = last_set blob_set (Signature.getSignature this) calls.
Proof.
  induction calls as [| c calls IH] using rev_ind; [done |].
  destruct IH as (IH1 & IH2 & IH3 & IH4 & IH5).
  unfold Signature_run in *. rewrite foldl_app, !last_set_snoc. simpl.
  destruct c; simpl; by rewrite <- ?IH1, <- ?IH2, <- ?IH3, <- ?IH4, <- ?IH5.
Qed.

(** X6.  After any sequence of calls of [setSignature], [setName] and
    [setMetainfo] on a [Data], each accessor returns the argument of the
    last call of its own setter, or what it returned before when its setter
    was not called, and the content is what it was.  Constructing a packet
    with a name is constructing it without and then setting the name: the
    same calls lead to the same packet. *)
Theorem Data_setters_last_write {R} (calls : list (Data_call R)) (this : Data.t R)
    (name : Name.t R) (indeterminate : double) :
  (Data.getSignature (Data_run calls this)
   = last_set signature_set (Data.getSignature this) calls
   ∧ Data.getName (Data_run calls this) = last_set name_set (Data.getName this) calls
   ∧ Data.getMetaInfo (Data_run calls this)
     = last_set metaInfo_set (Data.getMetaInfo this) calls
   ∧ Data.getContent (Data_run calls this) = Data.getContent this)
  ∧ Data_run calls (Data.ctor_name name indeterminate)
    = Data_run (call_setName name :: calls) (Data.ctor indeterminate).
Proof.
  split; [| reflexivity].
  induction calls as [| c calls IH] using rev_ind; [done |].
  destruct IH as (IH1 & IH2 & IH3 & IH4).
  unfold Data_run in *. rewrite foldl_app, !last_set_snoc. simpl.
  destruct c; simpl; by rewrite <- ?IH1, <- ?IH2, <- ?IH3, <- ?IH4.
Qed.

(** ** Setters that copy, and what they leave alone *)

Section Frame.

Implicit Types (h : Memory.Heap) (a : Memory.addr) (v : bytes).

Lemma view_app {A V} (view : Memory.Heap → A → V) (addrs : A → list Memory.addr)
    h (l : Memory.Heap) (x : A) :
  local_view view addrs → allocated h (addrs x) → view (h ++ l) x = view h x.
Proof.
  intros Hloc Hall. apply Hloc. eapply Forall_impl; [exact Hall |].
  simpl. intros a Ha. by apply lookup_app_l.
Qed.

Lemma allocated_app h (l : Memory.Heap) (addrs : list Memory.addr) :
  allocated h addrs → allocated (h ++ l) addrs.
Proof.
  intros Hall. eapply Forall_impl; [exact Hall |]. simpl.
  intros a Ha. rewrite length_app. lia.
Qed.

Lemma allocated_new h v : allocated (h ++ [Some v]) [length h].
Proof. apply Forall_singleton. rewrite length_app. simpl. lia. Qed.

(** A setter that builds a Blob, in a heap where the bytes can be read,
    and makes an object of it. *)
Lemma updates_intro {A V} (view : Memory.Heap → A → V) (addrs : A → list Memory.addr)
    (expected : V) (m : Memory.M A) h v (x : A) :
  m h = Some (x, h ++ [Some v]) →
  view (h ++ [Some v]) x = expected →
  allocated (h ++ [Some v]) (addrs x) →
  updates view addrs expected m h.
Proof.
  intros Hrun Hview Hall. exists x, (h ++ [Some v]).
  repeat split; try done. by apply prefix_app_r.
Qed.

End Frame.

(** X2.  In a heap where all Blobs of a [Signature] are allocated, each of
    the six setters of a byte value returns after allocating only: the
    three that take a vector, given any live vector holding bytes [v], and
    the three that take a pointer and a length, given any pointer and
    length that lead to bytes [w] (anywhere in a live buffer, or the null
    pointer with length 0).  The field it sets then holds those bytes, the
    four other fields hold what they held before, and all Blobs of the
    signature are allocated again. *)
Theorem Signature_byte_setters_frame (h : Memory.Heap) (s : Signature.t Memory.addr) :
  allocated h (Signature.addrs s) →
  let old := Signature.view h s in
  let digestAlgorithm_set (v : bytes) :=
    Signature.mk (Some v) (Signature.getWitness old) (Signature.getSignature old)
      (Signature.getPublisherPublicKeyDigest old) (Signature.getKeyLocator old) in
  let witness_set (v : bytes) :=
    Signature.mk (Signature.getDigestAlgorithm old) (Some v)
      (Signature.getSignature old)
      (Signature.getPublisherPublicKeyDigest old) (Signature.getKeyLocator old) in
  let signature_set (v : bytes) :=
    Signature.mk (Signature.getDigestAlgorithm old) (Signature.getWitness old)
      (Some v)
      (Signature.getPublisherPublicKeyDigest old) (Signature.getKeyLocator old) in
  (∀ (source : Memory.addr) (v : bytes),
      Memory.load h source = Some v →
      updates Signature.view Signature.addrs (digestAlgorithm_set v)
        (Signature.setDigestAlgorithm_vector source s) h
      ∧ updates Signature.view Signature.addrs (witness_set v)
          (Signature.setWitness_vector source s) h
      ∧ updates Signature.view Signature.addrs (signature_set v)
          (Signature.setSignature_vector source s) h)
  ∧ (∀ (p : Memory.pointer) (len : unsigned_int) (w : bytes),
       Memory.read_range p len h = Some (w, h) →
       updates Signature.view Signature.addrs (digestAlgorithm_set w)
         (Signature.setDigestAlgorithm_pointer p len s) h
       ∧ updates Signature.view Signature.addrs (witness_set w)
           (Signature.setWitness_pointer p len s) h
       ∧ updates Signature.view Signature.addrs (signature_set w)
           (Signature.setSignature_pointer p len s) h).
Proof.
  intros Hall old.
  destruct s as [d w0 sg pd kl]. unfold Signature.addrs in Hall. simpl in Hall.
  unfold allocated in Hall. rewrite !Forall_app in Hall.
  destruct Hall as (Hd & Hw & Hsg & Hpd & Hkl).
  assert (∀ (v : bytes) (run : Blob.t Memory.addr → Signature.t Memory.addr)
            (m : Memory.M (Signature.t Memory.addr)) (expected : Signature.t bytes),
            m h = Some (run (Some (length h)), h ++ [Some v]) →
            (run (Some (length h)) = Signature.mk (Some (length h)) w0 sg pd kl
             ∧ expected = Signature.mk (Some v) (Blob.contents h w0)
                            (Blob.contents h sg)
                            (PublisherPublicKeyDigest.view h pd) (KeyLocator.view h kl))
            ∨ (run (Some (length h)) = Signature.mk d (Some (length h)) sg pd kl
               ∧ expected = Signature.mk (Blob.contents h d) (Some v)
                              (Blob.contents h sg)
                              (PublisherPublicKeyDigest.view h pd)
                              (KeyLocator.view h kl))
            ∨ (run (Some (length h)) = Signature.mk d w0 (Some (length h)) pd kl
               ∧ expected = Signature.mk (Blob.contents h d) (Blob.contents h w0)
                              (Some v)
                              (PublisherPublicKeyDigest.view h pd)
                              (KeyLocator.view h kl)) →
            updates Signature.view Signature.addrs expected m h) as Hstep.
  { intros v run m expected Hrun Hcases.
    assert (Blob.contents (h ++ [Some v]) (Some (length h)) = Some v) as Hnew
      by apply load_alloc.
    pose proof (view_app Blob.contents Blob.addrs h [Some v] d contents_local Hd) as Ed.
    pose proof (view_app Blob.contents Blob.addrs h [Some v] w0 contents_local Hw) as Ew.
    pose proof (view_app Blob.contents Blob.addrs h [Some v] sg contents_local Hsg)
      as Esg.
    pose proof (view_app _ _ h [Some v] pd PublisherPublicKeyDigest_view_local Hpd)
      as Epd.
    pose proof (view_app _ _ h [Some v] kl KeyLocator_view_local Hkl) as Ekl.
    eapply updates_intro; [exact Hrun | |];
      destruct Hcases as [[-> ->] | [[-> ->] | [-> ->]]].
    1-3: unfold Signature.view;
         cbn [Signature.digestAlgorithm_ Signature.witness_ Signature.signature_
              Signature.publisherPublicKeyDigest_ Signature.keyLocator_];
         by rewrite ?Hnew, ?Ed, ?Ew, ?Esg, ?Epd, ?Ekl.
    all: unfold allocated, Signature.addrs;
         cbn [Signature.digestAlgorithm_ Signature.witness_ Signature.signature_
              Signature.publisherPublicKeyDigest_ Signature.keyLocator_];
         rewrite !Forall_app; repeat split;
         first [ apply allocated_new | by apply allocated_app ]. }
  split.
  - intros source v Hl. pose proof (of_vector_run _ _ _ Hl) as Hv.
    repeat split.
    + apply (Hstep v (λ b, Signature.mk b w0 sg pd kl)); [| by left].
      unfold Signature.setDigestAlgorithm_vector. by erewrite bind_run.
    + apply (Hstep v (λ b, Signature.mk d b sg pd kl)); [| by right; left].
      unfold Signature.setWitness_vector. by erewrite bind_run.
    + apply (Hstep v (λ b, Signature.mk d w0 b pd kl)); [| by right; right].
      unfold Signature.setSignature_vector. by erewrite bind_run.
  - intros p len w Hr. pose proof (of_pointer_run _ _ _ _ _ Hr) as Hp.
    repeat split.
    + apply (Hstep w (λ b, Signature.mk b w0 sg pd kl)); [| by left].
      unfold Signature.setDigestAlgorithm_pointer. by erewrite bind_run.
    + apply (Hstep w (λ b, Signature.mk d b sg pd kl)); [| by right; left].
      unfold Signature.setWitness_pointer. by erewrite bind_run.
    + apply (Hstep w (λ b, Signature.mk d w0 b pd kl)); [| by right; right].
      unfold Signature.setSignature_pointer. by erewrite bind_run.
Qed.

Lemma Signature_byte_setters_frame_witness :
  let h : Memory.Heap := [Some [Byte.x01; Byte.x02; Byte.x03]; Some [Byte.x07]] in
  let v : bytes := [Byte.x01; Byte.x02; Byte.x03] in
  let p := Memory.at_ 0%nat 1%nat in
  let w : bytes := [Byte.x02; Byte.x03] in
  let s : Signature.t Memory.addr :=
    Signature.mk Blob.null (Some 1%nat) Blob.null
      PublisherPublicKeyDigest.ctor KeyLocator.ctor in
  let old := Signature.view h s in
  let digestAlgorithm_set (v : bytes) :=
    Signature.mk (Some v) (Signature.getWitness old) (Signature.getSignature old)
      (Signature.getPublisherPublicKeyDigest old) (Signature.getKeyLocator old) in
  let witness_set (v : bytes) :=
    Signature.mk (Signature.getDigestAlgorithm old) (Some v)
      (Signature.getSignature old)
      (Signature.getPublisherPublicKeyDigest old) (Signature.getKeyLocator old) in
  let signature_set (v : bytes) :=
    Signature.mk (Signature.getDigestAlgorithm old) (Signature.getWitness old)
      (Some v)
      (Signature.getPublisherPublicKeyDigest old) (Signature.getKeyLocator old) in
  (updates Signature.view Signature.addrs (digestAlgorithm_set v)
     (Signature.setDigestAlgorithm_vector 0%nat s) h
   ∧ updates Signature.view Signature.addrs (witness_set v)
       (Signature.setWitness_vector 0%nat s) h
   ∧ updates Signature.view Signature.addrs (signature_set v)
       (Signature.setSignature_vector 0%nat s) h)
  ∧ (updates Signature.view Signature.addrs (digestAlgorithm_set w)
       (Signature.setDigestAlgorithm_pointer p 2%N s) h
     ∧ updates Signature.view Signature.addrs (witness_set w)
         (Signature.setWitness_pointer p 2%N s) h
     ∧ updates Signature.view Signature.addrs (signature_set w)
         (Signature.setSignature_pointer p 2%N s) h)
  ∧ updates Signature.view Signature.addrs (signature_set [])
      (Signature.setSignature_pointer Memory.null 0%N s) h.
Proof.
  assert (allocated [Some [Byte.x01; Byte.x02; Byte.x03]; Some [Byte.x07]]
            (Signature.addrs
               (Signature.mk Blob.null (Some 1%nat) Blob.null
                  PublisherPublicKeyDigest.ctor KeyLocator.ctor))) as Hall.
  { unfold allocated. simpl. repeat constructor. }
  destruct (Signature_byte_setters_frame _ _ Hall) as [Hvector Hpointer].
  split; [apply (Hvector 0%nat); reflexivity |].
  split; [apply (Hpointer (Memory.at_ 0%nat 1%nat) 2%N); reflexivity |].
  destruct (Hpointer Memory.null 0%N [] eq_refl) as (_ & _ & Hnull).
  exact Hnull.
Defined.

(** X3.  Each of the two overloads of [setFinalBlockID] returns after
    allocating only: the one that takes a vector, given any live vector
    holding bytes [v], and the one that takes a pointer and a length, given
    any pointer and length that lead to bytes [w] (anywhere in a live
    buffer, or the null pointer with length 0).  The final block id then
    holds those bytes, the timestamp, the type and the freshness period are
    what they were, and the Blob of the meta info is allocated. *)
Theorem MetaInfo_setFinalBlockID_frame (h : Memory.Heap) (m : MetaInfo.t Memory.addr) :
  let finalBlockID_set (v : bytes) : MetaInfo.t bytes :=
    MetaInfo.mk (MetaInfo.getTimestampMilliseconds m) (MetaInfo.getType m)
      (MetaInfo.getFreshnessSeconds m) (Component.mk (Some v)) in
  (∀ (source : Memory.addr) (v : bytes),
      Memory.load h source = Some v →
      updates MetaInfo.view MetaInfo.addrs (finalBlockID_set v)
        (MetaInfo.setFinalBlockID_vector source m) h)
  ∧ (∀ (p : Memory.pointer) (len : unsigned_int) (w : bytes),
       Memory.read_range p len h = Some (w, h) →
       updates MetaInfo.view MetaInfo.addrs (finalBlockID_set w)
         (MetaInfo.setFinalBlockID_pointer p len m) h).
Proof.
  intros finalBlockID_set.
  assert (∀ v, Blob.contents (h ++ [Some v]) (Some (length h)) = Some v) as Hnew
    by (intros v; apply load_alloc).
  split.
  - intros source v Hl. pose proof (of_vector_run _ _ _ Hl) as Hv.
    eapply updates_intro;
      [ unfold MetaInfo.setFinalBlockID_vector, Component.of_vector;
        erewrite bind_run; [reflexivity |];
        erewrite bind_run; [reflexivity | exact Hv]
      | unfold MetaInfo.view, Component.view;
        cbn [MetaInfo.finalBlockID_ Component.value_]; by rewrite Hnew
      | apply allocated_new ].
  - intros p len w Hr. pose proof (of_pointer_run _ _ _ _ _ Hr) as Hp.
    eapply updates_intro;
      [ unfold MetaInfo.setFinalBlockID_pointer, Component.of_pointer;
        erewrite bind_run; [reflexivity |];
        erewrite bind_run; [reflexivity | exact Hp]
      | unfold MetaInfo.view, Component.view;
        cbn [MetaInfo.finalBlockID_ Component.value_]; by rewrite Hnew
      | apply allocated_new ].
Qed.

Lemma MetaInfo_setFinalBlockID_frame_witness :
  let h : Memory.Heap := [Some [Byte.x01; Byte.x02; Byte.x03]] in
  let m : MetaInfo.t Memory.addr := MetaInfo.ctor (S754_zero false) in
  let finalBlockID_set (v : bytes) : MetaInfo.t bytes :=
    MetaInfo.mk (MetaInfo.getTimestampMilliseconds m) (MetaInfo.getType m)
      (MetaInfo.getFreshnessSeconds m) (Component.mk (Some v)) in
  updates MetaInfo.view MetaInfo.addrs
    (finalBlockID_set [Byte.x01; Byte.x02; Byte.x03])
    (MetaInfo.setFinalBlockID_vector 0%nat m) h
  ∧ updates MetaInfo.view MetaInfo.addrs (finalBlockID_set [Byte.x02; Byte.x03])
      (MetaInfo.setFinalBlockID_pointer (Memory.at_ 0%nat 1%nat) 2%N m) h
  ∧ updates MetaInfo.view MetaInfo.addrs (finalBlockID_set [])
      (MetaInfo.setFinalBlockID_pointer Memory.null 0%N m) h.
Proof.
  destruct (MetaInfo_setFinalBlockID_frame [Some [Byte.x01; Byte.x02; Byte.x03]]
              (MetaInfo.ctor (S754_zero false))) as [Hvector Hpointer].
  split; [apply (Hvector 0%nat); reflexivity |].
  split; [apply (Hpointer (Memory.at_ 0%nat 1%nat) 2%N); reflexivity |].
  apply (Hpointer Memory.null 0%N []); reflexivity.
Defined.

(** X1.  In a heap where all Blobs of a [Data] are allocated, the two
    copying overloads of [setContent] return after allocating only and
    store an owned copy: the one that takes a vector, given any live vector
    holding bytes [v], and the one that takes a pointer and a length, given
    any pointer and length that lead to bytes [w] (anywhere in a live
    buffer, or the null pointer with length 0).  The content reads those
    bytes after the call, after the source buffer has been overwritten or
    deallocated, and whatever else happens to the buffers that existed
    before; the signature, the name and the meta info hold what they held
    before, and all Blobs of the packet are allocated again. *)
Theorem Data_setContent_copies (h : Memory.Heap) (d : Data.t Memory.addr) :
  allocated h (Data.addrs d) →
  let old := Data.view h d in
  let content_set (v : bytes) :=
    Data.mk (Data.getSignature old) (Data.getName old) (Data.getMetaInfo old)
      (Some v) in
  (∀ (source : Memory.addr) (v : bytes),
      Memory.load h source = Some v →
      stores_copy Data.getContent (Some source) v (Data.setContent_vector source d) h
      ∧ updates Data.view Data.addrs (content_set v)
          (Data.setContent_vector source d) h)
  ∧ (∀ (p : Memory.pointer) (len : unsigned_int) (w : bytes),
       Memory.read_range p len h = Some (w, h) →
       stores_copy Data.getContent (buffer_of p) w (Data.setContent_pointer p len d) h
       ∧ updates Data.view Data.addrs (content_set w)
           (Data.setContent_pointer p len d) h).
Proof.
  intros Hall old.
  destruct d as [sg n mi c]. unfold Data.addrs in Hall. simpl in Hall.
  unfold allocated in Hall. rewrite !Forall_app in Hall.
  destruct Hall as (Hsg & Hn & Hmi & Hc).
  assert (∀ (v : bytes) (m : Memory.M (Data.t Memory.addr)),
            m h = Some (Data.mk sg n mi (Some (length h)), h ++ [Some v]) →
            updates Data.view Data.addrs
              (Data.mk (Signature.view h sg) (Name.view h n) (MetaInfo.view h mi)
                 (Some v)) m h) as Hstep.
  { intros v m Hrun.
    assert (Blob.contents (h ++ [Some v]) (Some (length h)) = Some v) as Hnew
      by apply load_alloc.
    pose proof (view_app _ _ h [Some v] sg Signature_view_local Hsg) as Esg.
    pose proof (view_app _ _ h [Some v] n Name_view_local Hn) as En.
    pose proof (view_app _ _ h [Some v] mi MetaInfo_view_local Hmi) as Emi.
    eapply updates_intro; [exact Hrun | |].
    - unfold Data.view. cbn [Data.signature_ Data.name_ Data.metaInfo_ Data.content_].
      by rewrite Hnew, Esg, En, Emi.
    - unfold allocated, Data.addrs.
      cbn [Data.signature_ Data.name_ Data.metaInfo_ Data.content_].
      rewrite !Forall_app. repeat split;
        first [ apply allocated_new | by apply allocated_app ]. }
  split.
  - intros source v Hl. pose proof (of_vector_run _ _ _ Hl) as Hv.
    assert (Data.setContent_vector source (Data.mk sg n mi c) h
            = Some (Data.mk sg n mi (Some (length h)), h ++ [Some v])) as Rv.
    { unfold Data.setContent_vector. by erewrite bind_run. }
    split; [| by apply Hstep].
    eapply stores_copy_intro; [exact Rv | reflexivity |].
    intros a [= <-]. by eapply load_lt.
  - intros p len w Hr. pose proof (of_pointer_run _ _ _ _ _ Hr) as Hp.
    assert (Data.setContent_pointer p len (Data.mk sg n mi c) h
            = Some (Data.mk sg n mi (Some (length h)), h ++ [Some w])) as Rp.
    { unfold Data.setContent_pointer. by erewrite bind_run. }
    split; [| by apply Hstep].
    eapply stores_copy_intro; [exact Rp | reflexivity |].
    intros a. by eapply read_range_source.
Qed.

Lemma Data_setContent_copies_witness :
  let h : Memory.Heap := [Some [Byte.x01; Byte.x02; Byte.x03]; Some [Byte.x07]] in
  let v : bytes := [Byte.x01; Byte.x02; Byte.x03] in
  let p := Memory.at_ 0%nat 1%nat in
  let w : bytes := [Byte.x02; Byte.x03] in
  let d : Data.t Memory.addr :=
    Data.mk Signature.ctor [Component.mk (Some 1%nat)]
      (MetaInfo.ctor (S754_zero false)) Blob.null in
  let old := Data.view h d in
  let content_set (v : bytes) :=
    Data.mk (Data.getSignature old) (Data.getName old) (Data.getMetaInfo old)
      (Some v) in
  (stores_copy Data.getContent (Some 0%nat) v (Data.setContent_vector 0%nat d) h
   ∧ updates Data.view Data.addrs (content_set v) (Data.setContent_vector 0%nat d) h)
  ∧ (stores_copy Data.getContent (buffer_of p) w (Data.setContent_pointer p 2%N d) h
     ∧ updates Data.view Data.addrs (content_set w) (Data.setContent_pointer p 2%N d) h)
  ∧ (stores_copy Data.getContent (buffer_of Memory.null) []
       (Data.setContent_pointer Memory.null 0%N d) h
     ∧ updates Data.view Data.addrs (content_set [])
         (Data.setContent_pointer Memory.null 0%N d) h).
Proof.
  assert (allocated [Some [Byte.x01; Byte.x02; Byte.x03]; Some [Byte.x07]]
            (Data.addrs
               (Data.mk Signature.ctor [Component.mk (Some 1%nat)]
                  (MetaInfo.ctor (S754_zero false)) Blob.null))) as Hall.
  { unfold allocated. simpl. repeat constructor. }
  destruct (Data_setContent_copies _ _ Hall) as [Hvector Hpointer].
  split; [apply (Hvector 0%nat); reflexivity |].
  split; [apply (Hpointer (Memory.at_ 0%nat 1%nat) 2%N); reflexivity |].
  apply (Hpointer Memory.null 0%N []); reflexivity.
Defined.

(** ** Calls through a wire format *)

Section WireCalls.

Context {St : Type}.
Implicit Types (wireFormat initial : WireFormat.t Data.packet St).
Implicit Types (D this : Data.packet) (st : St) (input : bytes).
Implicit Types (p : WireFormat.Process Data.packet St).

(** X9.  On a vector that is not empty the vector overload of [wireDecode]
    is defined and hands the codec a length that is below 2^32 and never
    more than the size of the vector; it is the size of the vector when
    that is below 2^32. *)
Theorem wireDecode_vector_length wireFormat this st input :
  input ≠ [] →
  ∃ len : unsigned_int,
    Data.wireDecode_vector input wireFormat this st
    = Some (Data.wireDecode input len wireFormat this st)
    ∧ (len < 2 ^ 32)%N
    ∧ (len ≤ N.of_nat (length input))%N
    ∧ ((N.of_nat (length input) < 2 ^ 32)%N → len = N.of_nat (length input)).
Proof.
  intros Hne. exists (to_unsigned_int (N.of_nat (length input))).
  unfold Data.wireDecode_vector, to_unsigned_int.
  destruct input as [| b rest]; [done |]. simpl (_ !! _).
  split; [reflexivity |]. split; [by apply N.mod_lt |].
  split; [by apply N.Div0.mod_le |]. intros Hlt. by apply N.mod_small.
Qed.

(** X10.  A call of [wireEncode] or of either [wireDecode] changes the
    process state only by evaluating its wire-format argument.  So after
    any sequence of such calls: a default that was resolved before the
    sequence is still the same instance; one that was not is still
    unresolved if every call named its wire format, and is the initial
    instance as soon as one call left it out. *)
Theorem default_resolved_once initial
    (given : list (option (WireFormat.t Data.packet St))) p :
  (∀ (arg : option (WireFormat.t Data.packet St)) this input
     (inputLength : unsigned_int) st q,
      (Data.wireEncode_call initial arg this q st).2
      = (WireFormat.argument initial arg q).2
      ∧ (Data.wireDecode_call initial input inputLength arg this q st).2
        = (WireFormat.argument initial arg q).2
      ∧ (Data.wireDecode_vector_call initial input arg this q st).2
        = (WireFormat.argument initial arg q).2)
  ∧ WireFormat.defaultWireFormat_ (Process_after initial given p)
    = match WireFormat.defaultWireFormat_ p with
      | Some resolved => Some resolved
      | None =>
          if forallb (λ arg, match arg with Some _ => true | None => false end) given
          then None
          else Some initial
      end.
Proof.
  split.
  - intros arg this input inputLength st q.
    unfold Data.wireEncode_call, Data.wireDecode_call, Data.wireDecode_vector_call.
    by destruct (WireFormat.argument initial arg q).
  - revert p. induction given as [| a rest IH]; intros p.
    + simpl. by destruct (WireFormat.defaultWireFormat_ p).
    + unfold Process_after in *. simpl foldl. rewrite IH.
      by destruct p as [[wf |]], a as [explicit |].
Qed.

End WireCalls.

Lemma wireDecode_vector_length_witness :
  ∃ len : unsigned_int,
    Data.wireDecode_vector [Byte.x00] Plain.wireFormat Plain.sample 0%nat
    = Some (Data.wireDecode [Byte.x00] len Plain.wireFormat Plain.sample 0%nat)
    ∧ (len < 2 ^ 32)%N
    ∧ (len ≤ N.of_nat (length [Byte.x00]))%N
    ∧ ((N.of_nat (length [Byte.x00]) < 2 ^ 32)%N → len = N.of_nat (length [Byte.x00])).
Proof.
  apply (wireDecode_vector_length Plain.wireFormat Plain.sample 0%nat [Byte.x00]).
  discriminate.
Defined.
